(** * fpv_auto_trimmer: take-off detection and trimming

    A shallow embedding of [fpv_auto_trimmer.py].  The Python module
    scans a video with OpenCV, computes one motion magnitude per frame
    transition, smooths it over a five-sample history and reports the
    first frame at which the rolling average exceeds a threshold, moved
    back by the size of the history.  The per-file driver then trims the
    video from that frame.

    Modelling choices.
    - Python [int] values are [Z]; Python [float] and numpy [float32]
      values (magnitudes, averages, wall-clock times) are exact
      rationals [Q], compared up to [Qeq].  Rounding, infinities and
      [nan] are not modelled: [np_mean] stands for the value of
      [np.mean], and the theorems about the decision engine do not
      depend on its arithmetic; the streams that are evaluated carry the
      magnitudes 0 and 20, whose sums and means over one to five samples
      are exact in binary floating point as well.
    - OpenCV's image routines ([cv2.resize], [cv2.cvtColor],
      [cv2.calcOpticalFlowFarneback]) and the wall clock are the fields
      of a [Platform]; every function of the module is defined over an
      arbitrary platform.
    - Effects are explicit: a [World] holds the file system, the table of
      capture handles, standard output and a tick counter for
      [time.time()].  A computation is a function from a world to a
      result (a value or a raised Python exception) and a new world. *)

From Stdlib Require Import ZArith QArith Qabs Lia Lqa Ascii String.
From stdpp Require Import base option list gmap strings.

Open Scope Z_scope.

(** ** Module constants (lines 6-13) *)

Definition SCALE_FACTOR : Q := 3 # 10.
Definition SKIP_SECONDS : Z := 4.
Definition FRAMES_PER_SECOND : Z := 30.
Definition ITERATIONS : Z := 3.

(** ** Python values and exceptions *)

Inductive exn : Type :=
| ZeroDivisionError
| FileNotFoundError.

Inductive result (A : Type) : Type :=
| Ok (a : A)
| Raise (e : exn).
Arguments Ok {A} a.
Arguments Raise {A} e.

(** [x is not None] and the truth value of an optional integer: [0] is
    not [None], but it is falsy. *)
Definition is_not_None {A} (x : option A) : bool :=
  match x with Some _ => true | None => false end.

Definition truthy (x : option Z) : bool :=
  match x with Some v => negb (v =? 0) | None => false end.

(** [range(a, b)] *)
Definition range (a b : Z) : list Z := seqZ a (b - a).

(** ** Numeric helpers: [np.mean] on a Python list of floats *)

Definition Qsum (l : list Q) : Q := foldr Qplus 0%Q l.

(** [np.mean l], as the exact mean; the scan only calls it on a non-empty
    list (on an empty one numpy gives [nan], here the value is 0). *)
Definition np_mean (l : list Q) : Q :=
  (Qsum l / inject_Z (Z.of_nat (length l)))%Q.

(** [a > b] on floats *)
Definition Qgtb (a b : Q) : bool := negb (Qle_bool a b).

(** ** The decision engine (lines 108-115 of the scan loop) *)

Definition history_size : Z := 5.

(** Lines 108-110: append, then drop the oldest when over capacity. *)
Definition push_history (motion_history : list Q) (motion_magnitude : Q) : list Q :=
  let motion_history := motion_history ++ [motion_magnitude] in
  if Z.of_nat (length motion_history) >? history_size
  then tail motion_history
  else motion_history.

(** Lines 114-115. *)
Definition update_takeoff (takeoff_frame : option Z) (avg_motion motion_threshold : Q)
    (frame_num : Z) : option Z :=
  if negb (is_not_None takeoff_frame) && Qgtb avg_motion motion_threshold
  then Some (Z.max 0 (frame_num - history_size))
  else takeoff_frame.

(** One pass through lines 108-115 for the magnitude of [frame_num]. *)
Definition decide_step (motion_threshold : Q) (frame_num : Z) (motion_magnitude : Q)
    (st : list Q * option Z) : list Q * option Z :=
  let motion_history := push_history (fst st) motion_magnitude in
  let avg_motion := np_mean motion_history in
  (motion_history, update_takeoff (snd st) avg_motion motion_threshold frame_num).

(** The engine fed with the magnitudes [ms] of the frames numbered
    [frame_num], [frame_num + 1], ... *)
Fixpoint run_engine (motion_threshold : Q) (frame_num : Z) (ms : list Q)
    (st : list Q * option Z) : list Q * option Z :=
  match ms with
  | [] => st
  | m :: ms' =>
      run_engine motion_threshold (frame_num + 1) ms'
        (decide_step motion_threshold frame_num m st)
  end.

(** ** The platform: OpenCV and the clock *)

(** A dense optical-flow field: rows of columns of displacements
    [(dx, dy)], rectangular as a numpy array of shape [(h, w, 2)]. *)
Definition Flow : Type := list (list (Q * Q)).

Class Platform : Type := {
  (** decoded colour frames and single-channel images *)
  Frame : Type;
  Gray : Type;
  (** [img.shape[:2]], as [(h, w)] *)
  shape : Gray -> Z * Z;
  (** [cv2.resize(frame, None, fx=_, fy=_)] *)
  cv2_resize_scale : Frame -> Q -> Q -> Frame;
  (** [cv2.resize(frame, (w, h))] *)
  cv2_resize_to : Frame -> Z * Z -> Frame;
  (** [cv2.cvtColor(frame, cv2.COLOR_BGR2GRAY)] *)
  cv2_cvtColor_BGR2GRAY : Frame -> Gray;
  (** [cv2.calcOpticalFlowFarneback(prev, next, None, pyr_scale, levels,
      winsize, iterations, poly_n, poly_sigma, flags)] *)
  cv2_calcOpticalFlowFarneback :
    Gray -> Gray -> Q -> Z -> Z -> Z -> Z -> Q -> Z -> Flow;
  (** the value of [time.time()] at its n-th call *)
  wall : nat -> Q
}.

(** ** Videos, capture handles and the world *)

Section Scan.

Context {P : Platform}.

Record Video : Type := mkVideo {
  v_fps : Z;              (* int(CAP_PROP_FPS) *)
  v_frame_count : Z;      (* int(CAP_PROP_FRAME_COUNT) *)
  v_width : Z;
  v_height : Z;
  v_frames : list Frame   (* the frames that can actually be decoded *)
}.

(** What [cv2.VideoCapture] reports for a source it cannot open. *)
Definition no_video : Video := mkVideo 0 0 0 0 [].

Record Capture : Type := mkCapture {
  cap_video : Video;
  cap_pos : nat;          (* index of the next frame [read] returns *)
  cap_opened : bool       (* [isOpened()]: the handle holds the source *)
}.

Inductive Output : Type :=
| OutProcessing (basename : string)
| OutSkipping (seconds frames : Z)
| OutEstimated (seconds : Q)
| OutProgress (frame_num total_frames : Z) (progress elapsed remaining : Q)
| OutAnalysisComplete (seconds : Q)
| OutProcessed (video_file : string) (takeoff : Z) (landing : option Z)
| OutNotDetected (video_file : string).

Record World : Type := mkWorld {
  files : gmap string Video;      (* path of a video file -> its content *)
  dirs : gmap string (list string); (* directory -> entries, in listing order *)
  handles : list Capture;         (* every capture handle opened so far *)
  stdout : list Output;           (* what has been printed, oldest first *)
  ticks : nat                     (* number of calls to [time.time()] *)
}.

Definition M (A : Type) : Type := World -> result A * World.

Definition ret {A} (a : A) : M A := fun w => (Ok a, w).

Definition raise {A} (e : exn) : M A := fun w => (Raise e, w).

Definition bind {A B} (c : M A) (k : A -> M B) : M B := fun w =>
  match c w with
  | (Ok a, w') => k a w'
  | (Raise e, w') => (Raise e, w')
  end.

Notation "'let!' x ':=' c 'in' k" := (bind c (fun x => k))
  (at level 10, x pattern, c at level 100, k at level 200).
Notation "c ';;' k" := (bind c (fun _ => k))
  (at level 100, k at level 200, right associativity).

(** *** Primitive effects *)

Definition print (o : Output) : M unit := fun w =>
  (Ok tt, mkWorld (files w) (dirs w) (handles w) (stdout w ++ [o]) (ticks w)).

Definition time_time : M Q := fun w =>
  (Ok (wall (ticks w)),
   mkWorld (files w) (dirs w) (handles w) (stdout w) (S (ticks w))).

(** Python's [/]: raises on a zero divisor. *)
Definition truediv (a b : Q) : M Q :=
  if Qeq_bool b 0 then raise ZeroDivisionError else ret (a / b)%Q.

(** Python's [%] on integers: raises on a zero divisor; the result has the
    sign of the divisor, as [Z.modulo]. *)
Definition py_mod (a b : Z) : M Z :=
  if b =? 0 then raise ZeroDivisionError else ret (a mod b).

Definition set_handle (cap : nat) (c : Capture) (w : World) : World :=
  mkWorld (files w) (dirs w) (<[cap := c]> (handles w)) (stdout w) (ticks w).

(** [cv2.VideoCapture(video_path)]: a new handle, at frame 0. *)
Definition cv2_VideoCapture (video_path : string) : M nat := fun w =>
  let c := match files w !! video_path with
           | Some v => mkCapture v 0 true
           | None => mkCapture no_video 0 false
           end in
  (Ok (length (handles w)),
   mkWorld (files w) (dirs w) (handles w ++ [c]) (stdout w) (ticks w)).

Definition handle_state (cap : nat) (w : World) : Capture :=
  default (mkCapture no_video 0 false) (handles w !! cap).

(** [cap.read()]: the next frame, or [(False, None)] at the end of the
    stream or on a handle that holds no source. *)
Definition cap_read (cap : nat) : M (bool * option Frame) := fun w =>
  let c := handle_state cap w in
  if cap_opened c then
    match v_frames (cap_video c) !! cap_pos c with
    | Some frame =>
        (Ok (true, Some frame),
         set_handle cap (mkCapture (cap_video c) (S (cap_pos c)) true) w)
    | None => (Ok (false, None), w)
    end
  else (Ok (false, None), w).

(** [cap.release()] *)
Definition cap_release (cap : nat) : M unit := fun w =>
  let c := handle_state cap w in
  (Ok tt, set_handle cap (mkCapture (cap_video c) (cap_pos c) false) w).

(** [int(cap.get(cv2.CAP_PROP_FPS))] and
    [int(cap.get(cv2.CAP_PROP_FRAME_COUNT))] *)
Definition cap_get_FPS (cap : nat) : M Z := fun w =>
  (Ok (v_fps (cap_video (handle_state cap w))), w).

Definition cap_get_FRAME_COUNT (cap : nat) : M Z := fun w =>
  (Ok (v_frame_count (cap_video (handle_state cap w))), w).

(** ** The scan (lines 15-119) *)

(** [os.path.basename]: what follows the last slash. *)
Fixpoint basename_go (acc s : string) : string :=
  match s with
  | EmptyString => acc
  | String c s' =>
      if Ascii.eqb c "/"%char then basename_go EmptyString s'
      else basename_go (acc +:+ String c EmptyString) s'
  end.

Definition os_path_basename (p : string) : string := basename_go EmptyString p.

Definition get_video_metadata (cap : nat) : M (Z * Z) :=
  let! fps := cap_get_FPS cap in
  let! total_frames := cap_get_FRAME_COUNT cap in
  ret (fps, total_frames).

Definition print_initial_status (video_path : string) (fps total_frames : Z) : M unit :=
  let estimated_fps_processing := FRAMES_PER_SECOND in
  let! estimated_total_time :=
    truediv (inject_Z total_frames) (inject_Z estimated_fps_processing) in
  print (OutProcessing (os_path_basename video_path)) ;;
  print (OutSkipping SKIP_SECONDS (fps * SKIP_SECONDS)) ;;
  print (OutEstimated estimated_total_time).

(** The [for _ in range(initial_skip_frames)] loop of lines 53-56, over
    the remaining iterations. *)
Fixpoint skip_loop (cap : nat) (iterations : list Z) : M bool :=
  match iterations with
  | [] => ret true
  | _ :: rest =>
      let! r := cap_read cap in
      let ret_ := fst r in
      if negb ret_ then ret false else skip_loop cap rest
  end.

Definition skip_initial_setup_frames (cap : nat) (fps : Z) : M bool :=
  let initial_skip_frames := SKIP_SECONDS * fps in
  skip_loop cap (range 0 initial_skip_frames).

Definition get_initial_frame (cap : nat) : M (option Gray) :=
  let! r := cap_read cap in
  match r with
  | (true, Some prev_frame) =>
      let small_frame := cv2_resize_scale prev_frame SCALE_FACTOR SCALE_FACTOR in
      ret (Some (cv2_cvtColor_BGR2GRAY small_frame))
  | _ => ret None
  end.

(** [a[i:j]] for [0 <= i], [0 <= j] *)
Definition slice {A} (a : list A) (i j : Z) : list A :=
  take (Z.to_nat (j - i)) (drop (Z.to_nat i) a).

(** [np.abs(region)], flattened: every component of every displacement. *)
Definition abs_components (region : Flow) : list Q :=
  concat (map (fun row => concat (map (fun d => [Qabs (fst d); Qabs (snd d)]) row)) region).

(** Lines 66-82.  The mean of an empty region ([nan] in numpy, for a flow
    field under two pixels high or wide) is [0] here. *)
Definition calculate_motion (prev_gray : Gray) (current_frame : Frame) : Q * Gray :=
  let '(h, w) := shape prev_gray in
  let small_frame := cv2_resize_to current_frame (w, h) in
  let gray := cv2_cvtColor_BGR2GRAY small_frame in
  let flow := cv2_calcOpticalFlowFarneback prev_gray gray
                (1 # 2) 3 15 ITERATIONS 5 (11 # 10) 0 in
  let h := Z.of_nat (length flow) in
  let w := Z.of_nat (length (hd [] flow)) in
  let center_region :=
    map (fun row => slice row (w / 4) (3 * w / 4)) (slice flow (h / 4) (3 * h / 4)) in
  (np_mean (abs_components center_region), gray).

Definition print_progress (frame_num total_frames : Z) (start_time : Q) : M unit :=
  let! now := time_time in
  let elapsed_time := (now - start_time)%Q in
  let! ratio := truediv (inject_Z frame_num) (inject_Z total_frames) in
  let progress := (ratio * 100)%Q in
  let! per_frame := truediv elapsed_time (inject_Z frame_num) in
  let remaining_time := (per_frame * inject_Z (total_frames - frame_num))%Q in
  print (OutProgress frame_num total_frames progress elapsed_time remaining_time).

(** The local variables of the scan loop. *)
Record LoopState : Type := mkLoop {
  prev_gray : Gray;
  motion_history : list Q;
  takeoff_frame : option Z
}.

(** The [for frame_num in range(1, total_frames)] loop of lines 98-117,
    over the remaining values of [frame_num]; [break] leaves it. *)
Fixpoint frames_loop (cap : nat) (total_frames : Z) (start_time motion_threshold : Q)
    (frame_nums : list Z) (st : LoopState) : M LoopState :=
  match frame_nums with
  | [] => ret st
  | frame_num :: rest =>
      let! r := py_mod frame_num FRAMES_PER_SECOND in
      (if r =? 0 then print_progress frame_num total_frames start_time else ret tt) ;;
      let! rd := cap_read cap in
      match rd with
      | (true, Some frame) =>
          let '(motion_magnitude, gray) := calculate_motion (prev_gray st) frame in
          let '(history, takeoff) :=
            decide_step motion_threshold frame_num motion_magnitude
              (motion_history st, takeoff_frame st) in
          frames_loop cap total_frames start_time motion_threshold rest
            (mkLoop gray history takeoff)
      | _ => ret st
      end
  end.

Definition process_frames_for_takeoff (cap : nat) (prev_gray : Gray) (total_frames : Z)
    (start_time motion_threshold : Q) : M (option Z) :=
  (* motion_history = [], takeoff_frame = None *)
  let! st := frames_loop cap total_frames start_time motion_threshold
               (range 1 total_frames) (mkLoop prev_gray [] None) in
  ret (takeoff_frame st).

Definition detect_motion (video_path : string) (motion_threshold : Q)
    : M (option Z * option Z) :=
  let! start_time := time_time in
  let! cap := cv2_VideoCapture video_path in
  let! (fps, total_frames) := get_video_metadata cap in
  print_initial_status video_path fps total_frames ;;
  let! skipped := skip_initial_setup_frames cap fps in
  if negb skipped then ret (None, None) else
  let! prev_gray := get_initial_frame cap in
  match prev_gray with
  | None => ret (None, None)
  | Some prev_gray =>
      let! takeoff_frame :=
        process_frames_for_takeoff cap prev_gray total_frames start_time motion_threshold in
      let! now := time_time in
      print (OutAnalysisComplete (now - start_time)%Q) ;;
      cap_release cap ;;
      ret (takeoff_frame, None)
  end.

(** ** Trimming and the per-file driver (lines 121-161) *)

(** [cap.set(cv2.CAP_PROP_POS_FRAMES, start_frame)] *)
Definition cap_set_POS_FRAMES (cap : nat) (start_frame : Z) : M unit := fun w =>
  let c := handle_state cap w in
  if cap_opened c
  then (Ok tt, set_handle cap (mkCapture (cap_video c) (Z.to_nat start_frame) true) w)
  else (Ok tt, w).

Definition cap_get_FRAME_WIDTH (cap : nat) : M Z := fun w =>
  (Ok (v_width (cap_video (handle_state cap w))), w).

Definition cap_get_FRAME_HEIGHT (cap : nat) : M Z := fun w =>
  (Ok (v_height (cap_video (handle_state cap w))), w).

(** [cv2.VideoWriter(output_path, fourcc, fps, (width, height))]: the
    writer is identified by the path of the file it creates.  The writer
    that OpenCV fails to open (no encoder, a frame rate or a size of 0,
    a path that cannot be written) is not modelled: here the file is
    always created. *)
Definition cv2_VideoWriter (output_path : string) (fps width height : Z) : M string :=
  fun w =>
  (Ok output_path,
   mkWorld (<[output_path := mkVideo fps 0 width height []]> (files w))
     (dirs w) (handles w) (stdout w) (ticks w)).

(** [out.write(frame)] *)
Definition out_write (out : string) (frame : Frame) : M unit := fun w =>
  let add v := mkVideo (v_fps v) (v_frame_count v + 1) (v_width v) (v_height v)
                 (v_frames v ++ [frame]) in
  (Ok tt, mkWorld (alter add out (files w)) (dirs w) (handles w) (stdout w) (ticks w)).

(** [out.release()]: the frames written are already in the file. *)
Definition out_release (out : string) : M unit := ret tt.

(** The copy loop of lines 131-135, over the remaining iterations. *)
Fixpoint trim_loop (cap : nat) (out : string) (iterations : list Z) : M unit :=
  match iterations with
  | [] => ret tt
  | _ :: rest =>
      let! rd := cap_read cap in
      match rd with
      | (true, Some frame) => out_write out frame ;; trim_loop cap out rest
      | _ => ret tt
      end
  end.

Definition trim_video (video_path output_path : string) (start_frame : Z)
    (end_frame : option Z) : M unit :=
  let! cap := cv2_VideoCapture video_path in
  let! fps := cap_get_FPS cap in
  let! width := cap_get_FRAME_WIDTH cap in
  let! height := cap_get_FRAME_HEIGHT cap in
  let! out := cv2_VideoWriter output_path fps width height in
  cap_set_POS_FRAMES cap start_frame ;;
  let! stop :=
    match end_frame with
    | Some e => if e =? 0 then cap_get_FRAME_COUNT cap else ret e
    | None => cap_get_FRAME_COUNT cap
    end in
  trim_loop cap out (range start_frame stop) ;;
  cap_release cap ;;
  out_release out.

(** [s.endswith(suffix)] and [s.endswith((s1, s2, ...))] *)
Definition endswith (s suffix : string) : bool :=
  String.prefix (String.rev suffix) (String.rev s).

Definition endswith_any (s : string) (suffixes : list string) : bool :=
  existsb (endswith s) suffixes.

(** [os.path.join(a, b)] for two components *)
Definition os_path_join (a b : string) : string :=
  if String.prefix "/" b then b
  else if String.eqb a "" || endswith a "/" then a +:+ b
  else a +:+ "/" +:+ b.

(** [os.path.exists(path)] *)
Definition os_path_exists (path : string) : M bool := fun w =>
  (Ok (bool_decide (is_Some (dirs w !! path)) || bool_decide (is_Some (files w !! path))), w).

(** [os.makedirs(path)], called where nothing exists at [path]: the
    directory itself is created; the parent directories that Python
    creates with it, and the entry added to the listing of the parent,
    are not modelled. *)
Definition os_makedirs (path : string) : M unit := fun w =>
  (Ok tt, mkWorld (files w) (<[path := []]> (dirs w)) (handles w) (stdout w) (ticks w)).

(** [os.listdir(path)]: the entries of a directory, [FileNotFoundError]
    where there is none.  The [NotADirectoryError] that Python raises
    when [path] is a regular file is not told apart. *)
Definition os_listdir (path : string) : M (list string) := fun w =>
  match dirs w !! path with
  | Some entries => (Ok entries, w)
  | None => (Raise FileNotFoundError, w)
  end.

Definition video_extensions : list string := [".mp4"; ".MP4"; ".avi"; ".mov"].

(** The default of [detect_motion]'s [motion_threshold]. *)
Definition default_motion_threshold : Q := 8.

(** The body of the loop over the video files (lines 146-157). *)
Definition process_video_file (folder_path output_folder video_file : string) : M unit :=
  let video_path := os_path_join folder_path video_file in
  let output_path := os_path_join output_folder ("trimmed_" +:+ video_file) in
  let! (takeoff, landing) := detect_motion video_path default_motion_threshold in
  match takeoff with
  | Some takeoff_ =>
      (* takeoff is not None *)
      trim_video video_path output_path takeoff_
        (if truthy landing then landing else None) ;;
      print (OutProcessed video_file takeoff_ (if truthy landing then landing else None))
  | None => print (OutNotDetected video_file)
  end.

Fixpoint for_video_files (folder_path output_folder : string) (video_files : list string)
    : M unit :=
  match video_files with
  | [] => ret tt
  | video_file :: rest =>
      process_video_file folder_path output_folder video_file ;;
      for_video_files folder_path output_folder rest
  end.

Definition process_videos (folder_path output_folder : string) : M unit :=
  let! present := os_path_exists output_folder in
  (if negb present then os_makedirs output_folder else ret tt) ;;
  let! listing := os_listdir folder_path in
  for_video_files folder_path output_folder
    (filter (fun f => endswith_any f video_extensions = true) listing).

(** The magnitudes computed along a run of frames, starting from the
    reference [g]: what the scan loop appends to its history while it
    reads [fs]. *)
Fixpoint transitions (g : Gray) (fs : list Frame) : list Q :=
  match fs with
  | [] => []
  | f :: fs' =>
      fst (calculate_motion g f) :: transitions (snd (calculate_motion g f)) fs'
  end.

(** The frames a handle can still deliver: none once it holds no source. *)
Definition readable (cap : nat) (w : World) : list Frame :=
  let c := handle_state cap w in
  if cap_opened c then drop (cap_pos c) (v_frames (cap_video c)) else [].

(** What [get_initial_frame] makes of the frame it reads. *)
Definition initial_reference (frame : Frame) : Gray :=
  cv2_cvtColor_BGR2GRAY (cv2_resize_scale frame SCALE_FACTOR SCALE_FACTOR).

(** [c] run in [w] returns normally, with a value and a world that
    satisfy [post]. *)
Definition returns {A} (c : M A) (w : World) (post : A -> World -> Prop) : Prop :=
  exists a w', c w = (Ok a, w') /\ post a w'.

(** What [cv2.VideoCapture(path)] finds at [path]. *)
Definition video_at (path : string) (w : World) : Video :=
  default no_video (files w !! path).

(** The magnitudes a scan feeds to the decision engine, as a function of
    the metadata and of the frames of the stream: those of the frames
    that follow the skipped ones and the initial reference, at most
    [total_frames - 1] of them.  None when the stream ends before the
    initial reference. *)
Definition analysed_frames (fps total_frames : Z) (frames : list Frame) : list Frame :=
  take (Z.to_nat (total_frames - 1)) (drop (S (Z.to_nat (SKIP_SECONDS * fps))) frames).

Definition analysed_magnitudes (fps total_frames : Z) (frames : list Frame) : list Q :=
  match frames !! Z.to_nat (SKIP_SECONDS * fps) with
  | None => []
  | Some frame =>
      transitions (initial_reference frame) (analysed_frames fps total_frames frames)
  end.

(** [print_progress] output *)
Definition is_progress (o : Output) : bool :=
  match o with OutProgress _ _ _ _ _ => true | _ => false end.

(** The two divisors of a progress report differ from zero. *)
Definition divisors_nonzero (o : Output) : Prop :=
  match o with
  | OutProgress frame_num total_frames _ _ _ => frame_num <> 0 /\ total_frames <> 0
  | _ => True
  end.

Definition FOLDER_PATH : string := "input".
Definition OUTPUT_FOLDER : string := "output".

(** The module's top-level statement (line 161). *)
Definition main : M unit := process_videos FOLDER_PATH OUTPUT_FOLDER.

End Scan.

(** ** The decision rule in the words of the specification

    Section 4.3: the history holds the most recent magnitudes, at most
    [H = 5] of them; the rolling average is taken over the values held;
    the event is the first frame whose rolling average exceeds the
    threshold, moved back by [H] and floored at 0. *)

(** The last [n] elements of a list. *)
Definition lastn {A} (n : nat) (l : list A) : list A := drop (length l - n)%nat l.

(** The values held once the magnitudes at positions [0..i] of [ms] have
    been appended. *)
Definition window (ms : list Q) (i : nat) : list Q := lastn 5 (take (S i) ms).

Definition rolling_average (ms : list Q) (i : nat) : Q := np_mean (window ms i).

Definition crosses (motion_threshold : Q) (ms : list Q) (i : nat) : bool :=
  Qgtb (rolling_average ms i) motion_threshold.

(** The position of the first magnitude at which the rolling average
    exceeds the threshold. *)
Definition first_crossing (motion_threshold : Q) (ms : list Q) : option nat :=
  List.find (crosses motion_threshold ms) (seq 0 (length ms)).

(** The event index when the magnitudes [ms] belong to the frames
    numbered [first], [first + 1], ... *)
Definition event_index (motion_threshold : Q) (first : Z) (ms : list Q) : option Z :=
  (fun i => Z.max 0 (first + Z.of_nat i - history_size)) <$> first_crossing motion_threshold ms.

(** ** A synthetic platform

    Frames are rationals: the displacement that the optical flow finds
    at every pixel, on both axes, when the frame follows any other.  The
    magnitude of a transition is then the absolute value of the frame it
    leads to.  Images are 4 by 4; the clock advances one second a call. *)

Definition synthetic : Platform := {|
  Frame := Q;
  Gray := Q;
  shape := fun _ => (4, 4);
  cv2_resize_scale := fun f _ _ => f;
  cv2_resize_to := fun f _ => f;
  cv2_cvtColor_BGR2GRAY := fun f => f;
  cv2_calcOpticalFlowFarneback := fun _ next _ _ _ _ _ _ _ =>
    repeat (repeat (next, next) 4) 4;
  wall := fun n => inject_Z (Z.of_nat n)
|}.

(** A world whose only file is [input/flight.mp4]. *)
Definition flight_path : string := "input/flight.mp4".

Definition flight_world (fps total_frames : Z) (frames : list Q) : @World synthetic :=
  @mkWorld synthetic
    {[ flight_path := @mkVideo synthetic fps total_frames 1920 1080 frames ]}
    {[ "input"%string := ["flight.mp4"%string] ]} [] [] 0.

(** The magnitude of the transition into frame [i] of a stream that is
    static up to frame 149 and moves by 20 from frame 150 on. *)
Definition static_until_150 (i : nat) : Q := if (i <? 150)%nat then 0%Q else 20%Q.

(** 300 such frames. *)
Definition takeoff_at_150 : list Q := replicate 150 0%Q ++ replicate 150 20%Q.

(** A stream that ends during the skip at 30 frames a second, one that
    ends right after it, and one that moves from its second frame on. *)
Definition short_flight : list Q := replicate 100 0%Q.
Definition flight_of_120 : list Q := replicate 120 0%Q.
Definition instant_takeoff : list Q := [0; 20; 20; 20]%Q.

(** A world in the middle of a scan: handle 0 has delivered the
    reference frame of a stream that moves from its second frame on. *)
Definition scanning_world : @World synthetic :=
  @mkWorld synthetic ∅ ∅
    [@mkCapture synthetic (@mkVideo synthetic 0 5 1920 1080 [0; 20; 20; 20; 20]%Q) 1 true]
    [] 0.

(** Magnitudes of the frames 1, 2, ...: below the threshold 8 up to
    frame 9, the constant 20 from frame 10 on. *)
Definition step_at_10 : list Q := replicate 9 0%Q ++ replicate 10 20%Q.

(** A path at which there is no file, and the path of a trimmed copy. *)
Definition missing_path : string := "input/missing.mp4".

(** ** What an operation may change

    Relations between the world before and the world after, used to
    state what the scan, the trimmer and the driver leave alone. *)

(** The verdict the driver prints for a file, and the file it is about. *)
Definition is_verdict (o : Output) : bool :=
  match o with
  | OutProcessed _ _ _ | OutNotDetected _ => true
  | _ => false
  end.


Section Effects.

Context {P : Platform}.

(** [c] changes the world along [R] only, whether it returns or raises. *)
Definition effect {A} (c : M A) (R : World -> World -> Prop) : Prop :=
  forall (w : World) (r : result A) (w' : World), c w = (r, w') -> R w w'.

(** The handle [cap] may have moved; it holds the same source, in the
    same open state, and the other handles are as they were. *)
Definition moves (cap : nat) (w w' : World) : Prop :=
  exists pos : nat,
    handles w' =
    <[cap := mkCapture (cap_video (handle_state cap w)) pos
               (cap_opened (handle_state cap w))]> (handles w).

(** What reading through the handle [cap] and reporting on it may
    change: the position of [cap], the clock, and standard output, which
    grows by lines that are no verdict.  Files and directories stay. *)
Definition scan_step (cap : nat) (w w' : World) : Prop :=
  files w' = files w /\
  dirs w' = dirs w /\
  moves cap w w' /\
  (exists outs : list Output,
     stdout w' = stdout w ++ outs /\ Forall (fun o => is_verdict o = false) outs).




End Effects.

(** * Facts about the numeric helpers *)

Lemma Qgtb_true (a b : Q) : Qgtb a b = true <-> (b < a)%Q.
Proof.
  unfold Qgtb. rewrite negb_true_iff, <- not_true_iff_false, Qle_bool_iff.
  split; [apply Qnot_le_lt | apply Qlt_not_le].
Qed.

Lemma Qgtb_false (a b : Q) : Qgtb a b = false <-> (a <= b)%Q.
Proof. unfold Qgtb. rewrite negb_false_iff. apply Qle_bool_iff. Qed.

Lemma Qgtb_Qeq (a a' b : Q) : (a == a')%Q -> Qgtb a b = Qgtb a' b.
Proof.
  intros Ha. destruct (Qgtb a' b) eqn:E.
  - apply Qgtb_true. apply Qgtb_true in E. now rewrite Ha.
  - apply Qgtb_false. apply Qgtb_false in E. now rewrite Ha.
Qed.

Lemma Qsum_Forall2 (l l' : list Q) : Forall2 Qeq l l' -> (Qsum l == Qsum l')%Q.
Proof.
  induction 1 as [|x y l l' Hxy _ IH]; simpl; [reflexivity|].
  now rewrite Hxy, IH.
Qed.

Lemma np_mean_Forall2 (l l' : list Q) : Forall2 Qeq l l' -> (np_mean l == np_mean l')%Q.
Proof.
  intros H. unfold np_mean.
  rewrite (Qsum_Forall2 _ _ H), (Forall2_length _ _ _ H). reflexivity.
Qed.

(** The mean of one sample is the sample. *)
Lemma np_mean_singleton (c : Q) : (np_mean [c] == c)%Q.
Proof.
  unfold np_mean. cbn [Qsum foldr length].
  change (inject_Z (Z.of_nat 1)) with 1%Q. field.
Qed.

(** * The history queue and the decision engine *)

Lemma lastn_length {A} (n : nat) (l : list A) :
  length (lastn n l) = Nat.min n (length l).
Proof. unfold lastn. rewrite length_drop. lia. Qed.

Lemma lastn_short {A} (n : nat) (l : list A) :
  (length l <= n)%nat -> lastn n l = l.
Proof.
  intros Hl. unfold lastn. now replace (length l - n)%nat with 0%nat by lia.
Qed.

(** Appending with eviction keeps exactly the five most recent values. *)
Lemma push_history_lastn (l : list Q) (m : Q) :
  push_history (lastn 5 l) m = lastn 5 (l ++ [m]).
Proof.
  unfold push_history, history_size.
  rewrite length_app, lastn_length. cbn [length].
  destruct (Z.gtb_spec (Z.of_nat (Nat.min 5 (length l) + 1)) 5) as [Hgt|Hle].
  - unfold lastn. rewrite length_app. cbn [length].
    assert (Hlen : (5 <= length l)%nat) by lia.
    rewrite (drop_app_le l [m]) by lia.
    replace (length l + 1 - 5)%nat with ((length l - 5) + 1)%nat by lia.
    rewrite <- drop_drop.
    destruct (drop (length l - 5)%nat l) as [|x rest] eqn:E; [|reflexivity].
    apply (f_equal length) in E. rewrite length_drop in E. simpl in E. lia.
  - rewrite (lastn_short 5 l) by lia.
    rewrite lastn_short; [reflexivity|]. rewrite length_app. cbn [length]. lia.
Qed.

Lemma run_engine_app (thr : Q) (ms1 ms2 : list Q) : forall (a : Z) (st : list Q * option Z),
  run_engine thr a (ms1 ++ ms2) st =
  run_engine thr (a + Z.of_nat (length ms1)) ms2 (run_engine thr a ms1 st).
Proof.
  induction ms1 as [|m ms1 IH]; intros a st.
  - cbn [app run_engine length]. now rewrite Z.add_0_r.
  - cbn [app run_engine length]. rewrite IH. f_equal. lia.
Qed.

Lemma run_engine_history (thr : Q) (ms : list Q) : forall (a : Z) (pre : list Q) (t : option Z),
  fst (run_engine thr a ms (lastn 5 pre, t)) = lastn 5 (pre ++ ms).
Proof.
  induction ms as [|m ms IH]; intros a pre t.
  - cbn. now rewrite app_nil_r.
  - cbn [run_engine]. unfold decide_step. cbn [fst snd].
    rewrite push_history_lastn, IH. now rewrite <- app_assoc.
Qed.

Lemma run_engine_history_nil (thr : Q) (a : Z) (ms : list Q) (t : option Z) :
  fst (run_engine thr a ms ([], t)) = lastn 5 ms.
Proof. exact (run_engine_history thr ms a [] t). Qed.

Lemma update_takeoff_stable (t : Z) (avg thr : Q) (f : Z) :
  update_takeoff (Some t) avg thr f = Some t.
Proof. reflexivity. Qed.

Lemma run_engine_stable (thr : Q) (ms : list Q) : forall (a : Z) (h : list Q) (t : Z),
  snd (run_engine thr a ms (h, Some t)) = Some t.
Proof.
  induction ms as [|m ms IH]; intros a h t; [reflexivity|].
  cbn [run_engine]. unfold decide_step. cbn [fst snd].
  rewrite update_takeoff_stable. apply IH.
Qed.

Lemma take_S_app_cons {A} (pre : list A) (m : A) (rest : list A) :
  take (S (length pre)) (pre ++ m :: rest) = pre ++ [m].
Proof.
  rewrite cons_middle, app_assoc.
  rewrite take_app_le by (rewrite length_app; simpl; lia).
  apply take_ge. rewrite length_app. simpl. lia.
Qed.

(** The stateful engine computes the event index of the specification:
    after the magnitudes [pre] without an event, reading [ms] stops at
    the first position of [pre ++ ms] whose rolling average crosses. *)
Lemma run_engine_from (thr : Q) (a : Z) (ms : list Q) : forall pre : list Q,
  snd (run_engine thr (a + Z.of_nat (length pre)) ms (lastn 5 pre, None)) =
  (fun i => Z.max 0 (a + Z.of_nat i - history_size)) <$>
    List.find (crosses thr (pre ++ ms)) (seq (length pre) (length ms)).
Proof.
  induction ms as [|m ms IH]; intros pre; [reflexivity|].
  cbn [run_engine length seq List.find].
  unfold decide_step. cbn [fst snd]. rewrite push_history_lastn.
  unfold crosses at 1, rolling_average, window. rewrite take_S_app_cons.
  unfold update_takeoff. cbn [is_not_None negb andb].
  destruct (Qgtb (np_mean (lastn 5 (pre ++ [m]))) thr).
  - now rewrite run_engine_stable.
  - specialize (IH (pre ++ [m])). rewrite length_app in IH. cbn [length] in IH.
    rewrite <- app_assoc in IH. cbn [app] in IH.
    replace (length pre + 1)%nat with (S (length pre)) in IH by lia.
    rewrite <- IH. do 2 f_equal. lia.
Qed.

Lemma run_engine_event_index (thr : Q) (a : Z) (ms : list Q) :
  snd (run_engine thr a ms ([], None)) = event_index thr a ms.
Proof.
  pose proof (run_engine_from thr a ms []) as H.
  cbn [length app] in H. rewrite Z.add_0_r in H. exact H.
Qed.

(** [List.find] over consecutive positions. *)
Lemma find_seq_Some (p : nat -> bool) (n : nat) : forall s i : nat,
  List.find p (seq s n) = Some i <->
  (s <= i < s + n)%nat /\ p i = true /\ forall j, (s <= j < i)%nat -> p j = false.
Proof.
  induction n as [|n IH]; intros s i; cbn [seq List.find].
  - split; [discriminate | lia].
  - destruct (p s) eqn:Hs.
    + split.
      * intros [= <-]. repeat split; [lia | lia | exact Hs | lia].
      * intros (Hi & Hp & Hmin). f_equal.
        destruct (decide (s = i)) as [|Hne]; [assumption|].
        rewrite (Hmin s) in Hs by lia. discriminate.
    + rewrite IH. split.
      * intros (Hi & Hp & Hmin). repeat split; [lia | lia | exact Hp |].
        intros j Hj. destruct (decide (j = s)) as [->|]; [exact Hs | apply Hmin; lia].
      * intros (Hi & Hp & Hmin).
        assert (s <> i) by (intros ->; congruence).
        repeat split; [lia | lia | exact Hp | intros j Hj; apply Hmin; lia].
Qed.

Lemma find_seq_None (p : nat -> bool) (n : nat) : forall s : nat,
  List.find p (seq s n) = None <-> forall j, (s <= j < s + n)%nat -> p j = false.
Proof.
  induction n as [|n IH]; intros s; cbn [seq List.find].
  - split; [intros _ j Hj; lia | reflexivity].
  - destruct (p s) eqn:Hs.
    + split; [discriminate|]. intros H. rewrite (H s) in Hs by lia. discriminate.
    + rewrite IH. split; intros H j Hj.
      * destruct (decide (j = s)) as [->|]; [exact Hs | apply H; lia].
      * apply H. lia.
Qed.

Lemma event_index_Some (thr : Q) (a : Z) (ms : list Q) (t : Z) :
  event_index thr a ms = Some t ->
  exists i : nat, (i < length ms)%nat /\ crosses thr ms i = true /\
    (forall j, (j < i)%nat -> crosses thr ms j = false) /\
    t = Z.max 0 (a + Z.of_nat i - history_size).
Proof.
  unfold event_index, first_crossing. intros Ht.
  destruct (List.find (crosses thr ms) (seq 0 (length ms))) as [i|] eqn:Hi;
    [|discriminate].
  injection Ht as <-. apply find_seq_Some in Hi as (Hlt & Hc & Hmin).
  exists i. split; [lia|]. split; [exact Hc|]. split; [|reflexivity].
  intros j Hj. apply Hmin. lia.
Qed.

Lemma event_index_None (thr : Q) (a : Z) (ms : list Q) :
  event_index thr a ms = None <->
  forall i : nat, (i < length ms)%nat -> crosses thr ms i = false.
Proof.
  unfold event_index, first_crossing.
  destruct (List.find (crosses thr ms) (seq 0 (length ms))) as [i|] eqn:Hi; cbn.
  - split; [discriminate|]. intros H.
    apply find_seq_Some in Hi as (Hlt & Hc & _).
    rewrite H in Hc by lia. discriminate.
  - split; [|reflexivity]. intros _ i Hlt.
    apply (proj1 (find_seq_None _ _ _) Hi). lia.
Qed.

Lemma find_ext {A} (p q : A -> bool) (l : list A) :
  (forall x, p x = q x) -> List.find p l = List.find q l.
Proof.
  intros Hpq. induction l as [|x l IH]; [reflexivity|].
  cbn [List.find]. now rewrite Hpq, IH.
Qed.

(** The decisions only depend on the magnitudes up to [Qeq]. *)
Lemma crosses_Forall2 (thr : Q) (ms ms' : list Q) (i : nat) :
  Forall2 Qeq ms ms' -> crosses thr ms i = crosses thr ms' i.
Proof.
  intros H. unfold crosses, rolling_average. apply Qgtb_Qeq, np_mean_Forall2.
  unfold window, lastn.
  rewrite !length_take, (Forall2_length _ _ _ H).
  now apply Forall2_drop, Forall2_take.
Qed.

Lemma event_index_Forall2 (thr : Q) (a : Z) (ms ms' : list Q) :
  Forall2 Qeq ms ms' -> event_index thr a ms = event_index thr a ms'.
Proof.
  intros H. unfold event_index, first_crossing.
  rewrite (Forall2_length _ _ _ H). f_equal.
  apply find_ext. intros i. now apply crosses_Forall2.
Qed.

Lemma range_seqZ (a b : Z) : range a b = seqZ a (Z.of_nat (Z.to_nat (b - a))).
Proof. unfold range, seqZ. now rewrite Nat2Z.id. Qed.

Lemma seqZ_S (a : Z) (n : nat) :
  seqZ a (Z.of_nat (S n)) = a :: seqZ (a + 1) (Z.of_nat n).
Proof.
  rewrite seqZ_cons by lia. f_equal. f_equal; lia.
Qed.

Lemma inject_Z_nonzero (z : Z) : z <> 0 -> Qeq_bool (inject_Z z) 0 = false.
Proof.
  intros Hz. destruct (Qeq_bool (inject_Z z) 0) eqn:E; [|reflexivity].
  apply Qeq_bool_eq in E. unfold Qeq in E. simpl in E. lia.
Qed.

(** * The scan as a state transformer *)

Section ScanFacts.

Context {P : Platform}.

Lemma returns_ret {A} (a : A) (w : World) (post : A -> World -> Prop) :
  post a w -> returns (ret a) w post.
Proof. intros H. exists a, w. now split. Qed.

Lemma returns_bind {A B} (c : M A) (k : A -> M B) (w : World)
    (post : B -> World -> Prop) :
  returns c w (fun a w' => returns (k a) w' post) -> returns (bind c k) w post.
Proof.
  intros (a & w' & Hc & b & w'' & Hk & Hpost).
  exists b, w''. split; [|exact Hpost]. unfold bind. now rewrite Hc.
Qed.

Lemma returns_mono {A} (c : M A) (w : World) (post post' : A -> World -> Prop) :
  returns c w post -> (forall a w', post a w' -> post' a w') -> returns c w post'.
Proof. intros (a & w' & Hc & Hp) Himp. exists a, w'. auto. Qed.

Lemma returns_eq {A} (c : M A) (w : World) (post : A -> World -> Prop)
    (r : result A) (w' : World) :
  returns c w post -> c w = (r, w') -> exists a, r = Ok a /\ post a w'.
Proof. intros (a & w1 & Hc & Hp) E. rewrite Hc in E. injection E as <- <-. eauto. Qed.

Lemma readable_handles (cap : nat) (w w' : World) :
  handles w' = handles w -> readable cap w' = readable cap w.
Proof. intros H. unfold readable, handle_state. now rewrite H. Qed.

(** [cap.read()] delivers the first readable frame, if there is one. *)
Lemma cap_read_returns (cap : nat) (w : World) :
  returns (cap_read cap) w (fun r w' =>
    stdout w' = stdout w /\
    match readable cap w with
    | [] => r = (false, None) /\ w' = w
    | frame :: rest => r = (true, Some frame) /\ readable cap w' = rest
    end).
Proof.
  unfold returns, cap_read, readable.
  destruct (handles w !! cap) as [c|] eqn:Hc.
  2:{ unfold handle_state. rewrite Hc. cbn. eauto 6. }
  assert (Hs : handle_state cap w = c) by (unfold handle_state; now rewrite Hc).
  rewrite Hs. destruct (cap_opened c) eqn:Ho; [|eauto 6].
  destruct (v_frames (cap_video c) !! cap_pos c) as [frame|] eqn:Hf.
  - rewrite (drop_S _ _ _ Hf). do 2 eexists. split; [reflexivity|].
    split; [reflexivity|]. split; [reflexivity|].
    unfold handle_state, set_handle. cbn [handles].
    rewrite list_lookup_insert_eq by (eapply lookup_lt_Some; eassumption).
    reflexivity.
  - rewrite drop_ge by (now apply lookup_ge_None). eauto 6.
Qed.

(** The skip loop consumes [n] frames, or fails when fewer are left. *)
Lemma skip_loop_returns (cap : nat) (n : nat) : forall (a : Z) (w : World),
  returns (skip_loop cap (seqZ a (Z.of_nat n))) w (fun b w' =>
    stdout w' = stdout w /\
    b = bool_decide (n <= length (readable cap w))%nat /\
    readable cap w' = drop n (readable cap w)).
Proof.
  induction n as [|n IH]; intros a w.
  - apply returns_ret. split; [reflexivity|]. split; [|reflexivity].
    symmetry. apply bool_decide_eq_true. lia.
  - rewrite seqZ_S. cbn [skip_loop]. apply returns_bind.
    eapply returns_mono; [apply cap_read_returns|].
    intros r w1 (Hout & Hr). cbv beta.
    destruct (readable cap w) as [|frame rest] eqn:E.
    + destruct Hr as (-> & ->). cbn [fst negb]. apply returns_ret.
      split; [reflexivity|]. split; [|now rewrite E].
      symmetry. apply bool_decide_eq_false. cbn. lia.
    + destruct Hr as (-> & Hrest). cbn [fst negb].
      eapply returns_mono; [apply IH|].
      intros b w2 (Hout2 & Hb & Hdrop). rewrite Hrest in Hb, Hdrop.
      split; [congruence|]. split; [|exact Hdrop].
      rewrite Hb. apply bool_decide_ext. cbn [length]. lia.
Qed.

Lemma get_initial_frame_returns (cap : nat) (w : World) :
  returns (get_initial_frame cap) w (fun g w' =>
    stdout w' = stdout w /\
    match readable cap w with
    | [] => g = None
    | frame :: rest => g = Some (initial_reference frame) /\ readable cap w' = rest
    end).
Proof.
  unfold get_initial_frame. apply returns_bind.
  eapply returns_mono; [apply cap_read_returns|].
  intros r w1 (Hout & Hr). cbv beta.
  destruct (readable cap w) as [|frame rest].
  - destruct Hr as (-> & ->). apply returns_ret. now split.
  - destruct Hr as (-> & Hrest). apply returns_ret. now repeat split.
Qed.

Lemma py_mod_returns (a b : Z) (w : World) :
  b <> 0 -> returns (py_mod a b) w (fun r w' => r = a mod b /\ w' = w).
Proof.
  intros Hb. unfold py_mod. destruct (Z.eqb_spec b 0); [contradiction|].
  now apply returns_ret.
Qed.

(** [print_progress] divides by [total_frames] and by [frame_num]. *)
Lemma print_progress_returns (frame_num total_frames : Z) (start_time : Q) (w : World) :
  frame_num <> 0 -> total_frames <> 0 ->
  returns (print_progress frame_num total_frames start_time) w (fun _ w' =>
    handles w' = handles w /\
    exists o, stdout w' = stdout w ++ [o] /\ divisors_nonzero o).
Proof.
  intros Hf Ht. unfold print_progress, truediv, returns, bind, time_time, print, ret.
  rewrite (inject_Z_nonzero _ Ht), (inject_Z_nonzero _ Hf). cbn.
  do 2 eexists. split; [reflexivity|]. split; [reflexivity|].
  eexists. split; [reflexivity|]. now split.
Qed.

(** The progress report at the head of an iteration of the scan loop. *)
Lemma progress_tick_returns (frame_num total_frames : Z) (start_time : Q) (w : World) :
  1 <= frame_num < total_frames ->
  returns (if frame_num mod FRAMES_PER_SECOND =? 0
           then print_progress frame_num total_frames start_time
           else ret tt) w
    (fun _ w' =>
      handles w' = handles w /\
      exists outs, stdout w' = stdout w ++ outs /\
        Forall divisors_nonzero outs /\
        (total_frames <= FRAMES_PER_SECOND -> outs = [])).
Proof.
  intros Hf. unfold FRAMES_PER_SECOND.
  destruct (Z.eqb_spec (frame_num mod 30) 0) as [Hmod|Hmod].
  - eapply returns_mono; [apply print_progress_returns; lia|].
    intros _ w1 (Hh & o & Ho & Hp). split; [exact Hh|].
    exists [o]. split; [exact Ho|]. split; [now constructor|].
    intros Hle. rewrite Z.mod_small in Hmod by lia. lia.
  - apply returns_ret. split; [reflexivity|]. exists []. rewrite app_nil_r. auto.
Qed.

(** The scan loop is the decision engine run over the magnitudes of the
    frames it reads; it never raises. *)
Lemma frames_loop_returns (cap : nat) (total_frames : Z) (start_time thr : Q) (n : nat) :
  forall (frame_num : Z) (st : LoopState) (w : World),
  1 <= frame_num -> ((0 < n)%nat -> frame_num + Z.of_nat n <= total_frames) ->
  returns (frames_loop cap total_frames start_time thr (seqZ frame_num (Z.of_nat n)) st) w
    (fun st' w' =>
      (motion_history st', takeoff_frame st') =
        run_engine thr frame_num
          (transitions (prev_gray st) (take n (readable cap w)))
          (motion_history st, takeoff_frame st) /\
      exists outs, stdout w' = stdout w ++ outs /\
        Forall divisors_nonzero outs /\
        (total_frames <= FRAMES_PER_SECOND -> outs = [])).
Proof.
  induction n as [|n IH]; intros frame_num st w Hf Hn.
  - apply returns_ret. split; [reflexivity|]. exists []. rewrite app_nil_r. auto.
  - specialize (Hn ltac:(lia)). rewrite seqZ_S. cbn [frames_loop].
    apply returns_bind.
    eapply returns_mono; [apply py_mod_returns; discriminate|].
    intros r w0 (-> & ->). apply returns_bind.
    eapply returns_mono; [apply progress_tick_returns; lia|].
    intros _ w1 (Hh & outs1 & Hout1 & Hprog1 & Hnone1).
    apply returns_bind.
    eapply returns_mono; [apply cap_read_returns|].
    intros rd w2 (Hout2 & Hrd). cbv beta.
    rewrite (readable_handles cap w w1 Hh) in Hrd.
    destruct (readable cap w) as [|frame rest] eqn:E.
    + destruct Hrd as (-> & ->). apply returns_ret. split; [reflexivity|].
      exists outs1. auto.
    + destruct Hrd as (-> & Hrest).
      cbn [take transitions run_engine].
      destruct (calculate_motion (prev_gray st) frame) as [m gray] eqn:Ecm.
      destruct (decide_step thr frame_num m (motion_history st, takeoff_frame st))
        as [history takeoff] eqn:Eds.
      eapply returns_mono; [apply (IH (frame_num + 1)); lia|].
      intros st' w' (Hst & outs2 & Hout3 & Hprog2 & Hnone2).
      cbn [prev_gray motion_history takeoff_frame] in Hst.
      rewrite Hrest in Hst. cbn [fst snd]. rewrite Eds. split; [exact Hst|].
      exists (outs1 ++ outs2). split.
      * rewrite Hout3, Hout2, Hout1. now rewrite app_assoc.
      * split; [now apply Forall_app|].
        intros Hle. now rewrite Hnone1, Hnone2.
Qed.

Lemma process_frames_for_takeoff_returns (cap : nat) (g : Gray) (total_frames : Z)
    (start_time thr : Q) (w : World) :
  returns (process_frames_for_takeoff cap g total_frames start_time thr) w
    (fun t w' =>
      t = snd (run_engine thr 1
                 (transitions g (take (Z.to_nat (total_frames - 1)) (readable cap w)))
                 ([], None)) /\
      exists outs, stdout w' = stdout w ++ outs /\
        Forall divisors_nonzero outs /\
        (total_frames <= FRAMES_PER_SECOND -> outs = [])).
Proof.
  unfold process_frames_for_takeoff. apply returns_bind. rewrite range_seqZ.
  eapply returns_mono; [apply frames_loop_returns; lia|].
  intros st' w' (Hst & Houts). apply returns_ret. split; [|exact Houts].
  cbn [prev_gray motion_history takeoff_frame] in Hst. now rewrite <- Hst.
Qed.

Lemma readable_fresh (path : string) (w : World) (f : gmap string Video)
    (d : gmap string (list string)) (o : list Output) (t : nat) :
  readable (length (handles w))
    (mkWorld f d
       (handles w ++ [match files w !! path with
                      | Some v => mkCapture v 0 true
                      | None => mkCapture no_video 0 false
                      end]) o t) =
  v_frames (video_at path w).
Proof.
  unfold readable, handle_state, video_at. cbn [handles].
  rewrite list_lookup_middle by reflexivity.
  now destruct (files w !! path).
Qed.

(** The whole scan: it returns normally, with the event index of the
    magnitudes it analyses, numbered from 1; every progress report has
    non-zero divisors, and there is none for a frame count of at most
    [FRAMES_PER_SECOND]. *)
Lemma detect_motion_returns (video_path : string) (thr : Q) (w : World) :
  let v := video_at video_path w in
  returns (detect_motion video_path thr) w (fun r w' =>
    r = (event_index thr 1
           (analysed_magnitudes (v_fps v) (v_frame_count v) (v_frames v)), None) /\
    exists outs, stdout w' = stdout w ++ outs /\
      Forall divisors_nonzero outs /\
      (v_frame_count v <= FRAMES_PER_SECOND ->
       Forall (fun o => is_progress o = false) outs)).
Proof.
  intros v. unfold detect_motion.
  apply returns_bind. do 2 eexists. split; [reflexivity|]. cbv beta.
  apply returns_bind. do 2 eexists. split; [reflexivity|]. cbv beta.
  apply returns_bind. do 2 eexists. split; [reflexivity|]. cbv beta iota.
  apply returns_bind. do 2 eexists. split; [reflexivity|]. cbv beta.
  cbn [handles files dirs stdout ticks].
  match goal with |- returns _ ?x _ => set (w3 := x) end.
  assert (Hread : readable (length (handles w)) w3 = v_frames v)
    by apply readable_fresh.
  assert (Hfps : v_fps (cap_video (handle_state (length (handles w)) w3)) = v_fps v).
  { unfold handle_state, w3, v, video_at. cbn [handles].
    rewrite list_lookup_middle by reflexivity. now destruct (files w !! video_path). }
  assert (Htot : v_frame_count (cap_video (handle_state (length (handles w)) w3)) =
                 v_frame_count v).
  { unfold handle_state, w3, v, video_at. cbn [handles].
    rewrite list_lookup_middle by reflexivity. now destruct (files w !! video_path). }
  assert (Hout3 : exists o1 o2 o3, stdout w3 = stdout w ++ [o1; o2; o3] /\
            Forall divisors_nonzero [o1; o2; o3] /\
            Forall (fun o => is_progress o = false) [o1; o2; o3]).
  { subst w3. cbn [stdout]. rewrite <- !app_assoc. cbn [app].
    do 3 eexists. split; [reflexivity|]. split; now repeat constructor. }
  destruct Hout3 as (o1 & o2 & o3 & Hout3 & Hdiv3 & Hnp3).
  replace (v_fps (cap_video (handle_state (length (handles w))
             (mkWorld (files w) (dirs w) (handles w ++ _) (stdout w) (S (ticks w))))))
    with (v_fps v) by (symmetry; exact Hfps).
  replace (v_frame_count (cap_video (handle_state (length (handles w))
             (mkWorld (files w) (dirs w) (handles w ++ _) (stdout w) (S (ticks w))))))
    with (v_frame_count v) by (symmetry; exact Htot).
  clearbody w3.
  apply returns_bind. unfold skip_initial_setup_frames. rewrite range_seqZ, Z.sub_0_r.
  eapply returns_mono; [apply skip_loop_returns|].
  intros skipped w4 (Hout4 & Hskipped & Hread4). cbv beta.
  rewrite Hread in Hskipped, Hread4. unfold analysed_magnitudes, analysed_frames.
  set (s := Z.to_nat (SKIP_SECONDS * v_fps v)) in *.
  destruct skipped; cbn [negb].
  - apply returns_bind.
    eapply returns_mono; [apply get_initial_frame_returns|].
    intros g w5 (Hout5 & Hg). cbv beta. rewrite Hread4 in Hg.
    destruct (v_frames v !! s) as [frame|] eqn:Hframe.
    + rewrite (drop_S _ _ _ Hframe) in Hg. destruct Hg as (-> & Hread5).
      apply returns_bind.
      eapply returns_mono; [apply process_frames_for_takeoff_returns|].
      intros t w6 (Ht & outs & Hout6 & Hprog & Hnone). cbv beta.
      apply returns_bind. do 2 eexists. split; [reflexivity|]. cbv beta.
      apply returns_bind. do 2 eexists. split; [reflexivity|]. cbv beta.
      apply returns_bind. do 2 eexists. split; [reflexivity|]. cbv beta.
      apply returns_ret. rewrite Hread5, run_engine_event_index in Ht.
      split; [now rewrite Ht|].
      cbn [stdout set_handle]. eexists ([o1; o2; o3] ++ outs ++ [_]). split.
      * rewrite Hout6, Hout5, Hout4, Hout3. now rewrite <- !app_assoc.
      * split.
        -- apply Forall_app. split; [exact Hdiv3|].
           apply Forall_app. split; [exact Hprog | now repeat constructor].
        -- intros Hle. rewrite (Hnone Hle).
           apply Forall_app. split; [exact Hnp3 | now repeat constructor].
    + rewrite drop_ge in Hg by (now apply lookup_ge_None). subst g.
      apply returns_ret. split; [reflexivity|].
      exists [o1; o2; o3]. split; [congruence|]. auto.
  - apply returns_ret. symmetry in Hskipped. apply bool_decide_eq_false in Hskipped.
    rewrite (proj2 (lookup_ge_None (v_frames v) s)) by lia.
    split; [reflexivity|].
    exists [o1; o2; o3]. split; [congruence|]. auto.
Qed.

End ScanFacts.

(** * The decision engine: history and first crossing *)

(** C6: whatever magnitudes are appended, the history queue never holds
    more than [H = 5] values; it holds exactly [min 5 n] after [n]
    appends, hence exactly 5 from the fifth on; and it holds the most
    recent ones in order, the oldest having been evicted first. *)
Theorem C6_history_bounded (thr : Q) (frame_num : Z) (ms : list Q) :
  let motion_history := fst (run_engine thr frame_num ms ([], None)) in
  (length motion_history <= 5)%nat /\
  length motion_history = Nat.min 5 (length ms) /\
  motion_history = lastn 5 ms.
Proof.
  cbv zeta. rewrite run_engine_history_nil, lastn_length.
  split; [lia|]. split; reflexivity.
Qed.


(** C2, as the code has it: for every sequence of magnitudes, whatever
    its shape, the engine sets the event index to [max 0 (f - H)] where
    [f] is the first frame at which [np.mean] of the history it holds,
    the last five magnitudes or fewer, exceeds the threshold, and sets
    none when the mean exceeds the threshold at no frame.  The frame [f]
    is the frame of the crossing, not the frame [k] at which the
    magnitudes themselves rise. *)
Theorem C2_event_index_at_first_crossing (thr : Q) (first : Z) (ms : list Q) :
  (forall i : nat,
     fst (run_engine thr first (take (S i) ms) ([], None)) = window ms i) /\
  (forall t : Z,
     snd (run_engine thr first ms ([], None)) = Some t <->
     exists i : nat,
       (i < length ms)%nat /\
       Qgtb (np_mean (window ms i)) thr = true /\
       (forall j : nat, (j < i)%nat -> Qgtb (np_mean (window ms j)) thr = false) /\
       t = Z.max 0 (first + Z.of_nat i - history_size)) /\
  (snd (run_engine thr first ms ([], None)) = None <->
   forall i : nat, (i < length ms)%nat -> Qgtb (np_mean (window ms i)) thr = false).
Proof.
  split; [intros i; apply run_engine_history_nil|].
  rewrite run_engine_event_index. split.
  - intros t. split; [apply event_index_Some|].
    intros (i & Hi & Hc & Hmin & ->).
    unfold event_index, first_crossing.
    rewrite (proj2 (find_seq_Some (crosses thr ms) (length ms) 0 i)); [reflexivity|].
    split; [lia|]. split; [exact Hc|]. intros j Hj. apply Hmin. lia.
  - apply event_index_None.
Qed.

(** The event index of the stream that is static until frame 150, when
    the scan starts after [4 * n] skipped frames and the reference. *)
Lemma static_until_150_event_index (n : nat) :
  (n <= 36)%nat ->
  event_index 8 1 (map static_until_150 (seq (S (4 * n)) (299 - 4 * n))) =
  Some (147 - 4 * Z.of_nat n).
Proof.
  intros Hn. do 37 (destruct n as [|n]; [vm_compute; reflexivity|]). lia.
Qed.

(** * The scan: claims *)

Section ScanClaims.

Context {P : Platform}.

Lemma transitions_length (fs : list Frame) : forall g : Gray,
  length (transitions g fs) = length fs.
Proof. induction fs as [|f fs IH]; intros g; cbn; [reflexivity | now rewrite IH]. Qed.

Lemma transitions_app (fs1 fs2 : list Frame) : forall g : Gray,
  exists g', transitions g (fs1 ++ fs2) = transitions g fs1 ++ transitions g' fs2.
Proof.
  induction fs1 as [|f fs1 IH]; intros g.
  - now exists g.
  - destruct (IH (snd (calculate_motion g f))) as (g' & Hg').
    exists g'. cbn [app transitions]. now rewrite Hg'.
Qed.

(** When the magnitude of the transition into a frame only depends on
    the position of the frame, the magnitudes along a run are these. *)
Lemma transitions_pointwise (mag : nat -> Q) (fs : list Frame) : forall (g : Gray) (off : nat),
  (forall g i f, fs !! i = Some f -> (fst (calculate_motion g f) == mag (off + i)%nat)%Q) ->
  Forall2 Qeq (transitions g fs) (map mag (seq off (length fs))).
Proof.
  induction fs as [|f fs IH]; intros g off Hmag; [constructor|].
  cbn [transitions length seq map]. constructor.
  - rewrite (Hmag g 0%nat f eq_refl). now rewrite Nat.add_0_r.
  - apply IH. intros g' i f' Hi.
    rewrite (Hmag g' (S i) f' Hi). now replace (off + S i)%nat with (S off + i)%nat by lia.
Qed.

Lemma take_seqZ (n N : nat) (a : Z) :
  take n (seqZ a (Z.of_nat N)) = seqZ a (Z.of_nat (Nat.min n N)).
Proof.
  unfold seqZ. rewrite !Nat2Z.id, <- fmap_take. f_equal.
  now rewrite take_seq.
Qed.

Lemma video_at_Some (path : string) (w : World) (v : Video) :
  files w !! path = Some v -> video_at path w = v.
Proof. intros H. unfold video_at. now rewrite H. Qed.

(** The value of a scan, for every world. *)
Lemma detect_motion_value (video_path : string) (thr : Q) (w : World) :
  let v := video_at video_path w in
  fst (detect_motion video_path thr w) =
  Ok (event_index thr 1
        (analysed_magnitudes (v_fps v) (v_frame_count v) (v_frames v)), None).
Proof.
  destruct (detect_motion_returns video_path thr w) as (r & w' & E & -> & _).
  cbv zeta. now rewrite E.
Qed.

(** C3: the number under which a frame reaches the decision engine counts
    the analysed frames from 1, after the skipped frames and the initial
    reference: number [n] is the frame at index [frame_rate * skip_seconds
    + n] of the stream, and the event index returned is [max 0 (n - 5)]
    for the number [n] of the first crossing, hence an index relative to
    the frames analysed and not to the stream. *)
Theorem C3_event_index_counts_analysed_frames (video_path : string) (thr : Q)
    (w : World) (v : Video) (frame : Frame) :
  files w !! video_path = Some v ->
  0 <= v_fps v ->
  let s := Z.to_nat (SKIP_SECONDS * v_fps v) in
  v_frames v !! s = Some frame ->
  let analysed := analysed_frames (v_fps v) (v_frame_count v) (v_frames v) in
  let ms := transitions (initial_reference frame) analysed in
  Z.of_nat s = v_fps v * SKIP_SECONDS /\
  (forall n : nat, (1 <= n <= length analysed)%nat ->
     analysed !! (n - 1)%nat = v_frames v !! (s + n)%nat) /\
  fst (detect_motion video_path thr w) = Ok (event_index thr 1 ms, None) /\
  (forall t : Z, event_index thr 1 ms = Some t ->
     exists n : nat, (1 <= n <= length analysed)%nat /\
       first_crossing thr ms = Some (n - 1)%nat /\
       t = Z.max 0 (Z.of_nat n - history_size)).
Proof.
  intros Hfile Hfps s Hframe analysed ms.
  split; [unfold s, SKIP_SECONDS; lia|]. split; [|split].
  - intros n Hn. unfold analysed, analysed_frames in *. fold s in Hn |- *.
    rewrite length_take in Hn.
    rewrite lookup_take_lt by lia. rewrite lookup_drop. f_equal. lia.
  - rewrite detect_motion_value, (video_at_Some _ _ _ Hfile).
    unfold analysed_magnitudes. fold s. now rewrite Hframe.
  - intros t Ht. unfold event_index in Ht.
    destruct (first_crossing thr ms) as [i|] eqn:Hi; [|discriminate].
    injection Ht as <-. unfold first_crossing in Hi.
    apply find_seq_Some in Hi as (Hlt & _).
    unfold ms in Hlt. rewrite transitions_length in Hlt.
    exists (S i). split; [lia|]. split; [f_equal; lia|].
    f_equal. lia.
Qed.

(** C8: at 30 frames a second the skip loop reads 120 frames; the scan
    then takes frame 120 as its reference and analyses from frame 121
    on; if the stream has fewer than 120 frames the scan returns
    [(None, None)] without raising. *)
Theorem C8_skip_phase (video_path : string) (thr : Q) (w : World) (v : Video) :
  files w !! video_path = Some v ->
  v_fps v = 30 ->
  (forall (cap : nat) (w0 : World), readable cap w0 = v_frames v ->
     exists w1 : World,
       skip_initial_setup_frames cap (v_fps v) w0 =
         (Ok (bool_decide (120 <= length (v_frames v))%nat), w1) /\
       readable cap w1 = drop 120 (v_frames v) /\
       stdout w1 = stdout w0) /\
  (forall frame : Frame, v_frames v !! 120%nat = Some frame ->
     fst (detect_motion video_path thr w) =
       Ok (event_index thr 1
             (transitions (initial_reference frame)
                (take (Z.to_nat (v_frame_count v - 1)) (drop 121 (v_frames v)))),
           None)) /\
  ((length (v_frames v) < 120)%nat ->
     fst (detect_motion video_path thr w) = Ok (None, None)).
Proof.
  intros Hfile Hfps. split; [|split].
  - intros cap w0 Hread. rewrite Hfps.
    destruct (skip_loop_returns cap 120 0 w0) as (b & w1 & E & Hout & Hb & Hdrop).
    exists w1. rewrite Hread in Hb, Hdrop. subst b. auto.
  - intros frame Hframe.
    rewrite detect_motion_value, (video_at_Some _ _ _ Hfile), Hfps.
    unfold analysed_magnitudes, analysed_frames.
    change (Z.to_nat (SKIP_SECONDS * 30)) with 120%nat. now rewrite Hframe.
  - intros Hshort.
    rewrite detect_motion_value, (video_at_Some _ _ _ Hfile), Hfps.
    unfold analysed_magnitudes.
    change (Z.to_nat (SKIP_SECONDS * 30)) with 120%nat.
    now rewrite (proj2 (lookup_ge_None (v_frames v) 120)) by lia.
Qed.


(** C10: the scan signals that nothing was detected by [None] alone,
    which it returns exactly when no rolling average crossed the
    threshold; it reports no landing; and the driver tests the take-off
    frame with [is not None]: every detected index, 0 included, leads to
    [trim_video] from that index, and only [None] to the message that no
    take-off was detected. *)
Theorem C10_zero_is_a_detection (folder_path output_folder video_file : string)
    (w w1 : World) (r : option Z * option Z) :
  let video_path := os_path_join folder_path video_file in
  let output_path := os_path_join output_folder ("trimmed_" +:+ video_file) in
  let v := video_at video_path w in
  let ms := analysed_magnitudes (v_fps v) (v_frame_count v) (v_frames v) in
  detect_motion video_path default_motion_threshold w = (Ok r, w1) ->
  snd r = None /\
  (fst r = None <-> first_crossing default_motion_threshold ms = None) /\
  (forall t : Z, fst r = Some t ->
     process_video_file folder_path output_folder video_file w =
     bind (trim_video video_path output_path t None)
       (fun _ => print (OutProcessed video_file t None)) w1) /\
  (fst r = Some 0 ->
     process_video_file folder_path output_folder video_file w =
     bind (trim_video video_path output_path 0 None)
       (fun _ => print (OutProcessed video_file 0 None)) w1) /\
  (fst r = None ->
     process_video_file folder_path output_folder video_file w =
     print (OutNotDetected video_file) w1).
Proof.
  intros video_path output_path v ms E.
  destruct (returns_eq _ _ _ _ _
              (detect_motion_returns video_path default_motion_threshold w) E)
    as (r' & [= <-] & Hr & _).
  fold v ms in Hr.
  assert (Hsome : forall t : Z, fst r = Some t ->
            process_video_file folder_path output_folder video_file w =
            bind (trim_video video_path output_path t None)
              (fun _ => print (OutProcessed video_file t None)) w1).
  { intros t Ht. unfold process_video_file, bind at 1.
    fold video_path output_path. rewrite E. rewrite Hr in Ht |- *.
    cbn [fst] in Ht. rewrite Ht. reflexivity. }
  split; [now rewrite Hr|].
  split; [rewrite Hr; cbn [fst]; unfold event_index; apply fmap_None|].
  split; [exact Hsome|]. split; [apply Hsome|].
  intros Ht. unfold process_video_file, bind at 1.
  fold video_path output_path. rewrite E. rewrite Hr in Ht |- *.
  cbn [fst] in Ht. rewrite Ht. reflexivity.
Qed.

Lemma engine_prefix_stable (thr : Q) (a : Z) (g : Gray) (fs : list Frame)
    (st : list Q * option Z) (k1 k2 : nat) (t : Z) :
  snd (run_engine thr a (transitions g (take k1 fs)) st) = Some t ->
  (k1 <= k2)%nat ->
  snd (run_engine thr a (transitions g (take k2 fs)) st) = Some t.
Proof.
  intros H1 Hk.
  rewrite <- (take_drop k1 (take k2 fs)), take_take.
  replace (k1 `min` k2)%nat with k1 by lia.
  destruct (transitions_app (take k1 fs) (drop k1 (take k2 fs)) g) as (g' & ->).
  rewrite run_engine_app.
  destruct (run_engine thr a (transitions g (take k1 fs)) st) as [h1 t1].
  cbn [snd] in H1. subst t1. apply run_engine_stable.
Qed.

(** The first [k] iterations of the scan loop. *)
Lemma frames_loop_prefix (cap : nat) (g : Gray) (total_frames : Z)
    (start_time thr : Q) (w : World) (k : nat) :
  returns (frames_loop cap total_frames start_time thr
             (take k (range 1 total_frames)) (mkLoop g [] None)) w
    (fun st' _ =>
      (motion_history st', takeoff_frame st') =
      run_engine thr 1
        (transitions g (take (Nat.min k (Z.to_nat (total_frames - 1))) (readable cap w)))
        ([], None)).
Proof.
  rewrite range_seqZ, take_seqZ.
  eapply returns_mono; [apply frames_loop_returns; lia|].
  intros st' w' (Hst & _). exact Hst.
Qed.

(** C5: once the event index has been set, at whatever iteration of the
    scan loop, it has the same value after every later iteration and is
    the value the scan returns: it is assigned at most once. *)
Theorem C5_event_index_set_once (cap : nat) (g : Gray) (total_frames : Z)
    (start_time thr : Q) (w : World) (n : nat) (st1 : LoopState) (w1 : World) (t : Z) :
  frames_loop cap total_frames start_time thr
    (take n (range 1 total_frames)) (mkLoop g [] None) w = (Ok st1, w1) ->
  takeoff_frame st1 = Some t ->
  (forall m : nat, (n <= m)%nat ->
     exists (st2 : LoopState) (w2 : World),
       frames_loop cap total_frames start_time thr
         (take m (range 1 total_frames)) (mkLoop g [] None) w = (Ok st2, w2) /\
       takeoff_frame st2 = Some t) /\
  exists w' : World,
    process_frames_for_takeoff cap g total_frames start_time thr w = (Ok (Some t), w').
Proof.
  intros E Ht.
  destruct (returns_eq _ _ _ _ _
              (frames_loop_prefix cap g total_frames start_time thr w n) E)
    as (st & [= <-] & Hst).
  assert (H1 : snd (run_engine thr 1
                 (transitions g (take (Nat.min n (Z.to_nat (total_frames - 1)))
                                  (readable cap w))) ([], None)) = Some t)
    by (now rewrite <- Hst).
  split.
  - intros m Hm.
    destruct (frames_loop_prefix cap g total_frames start_time thr w m)
      as (st2 & w2 & E2 & Hst2).
    exists st2, w2. split; [exact E2|].
    change (takeoff_frame st2) with (snd (motion_history st2, takeoff_frame st2)).
    rewrite Hst2. eapply engine_prefix_stable; [exact H1 | lia].
  - destruct (process_frames_for_takeoff_returns cap g total_frames start_time thr w)
      as (t' & w' & E' & Ht' & _).
    exists w'. rewrite E'. do 2 f_equal. rewrite Ht'.
    eapply engine_prefix_stable; [exact H1 | lia].
Qed.

(** C1, as the code has it: on a stream of 300 frames with a frame count
    of 300 and a frame rate of 0, so that the skip reads nothing and the
    frame numbers of the scan are the positions in the stream, when the
    transitions the scan computes, each against the image kept from the
    frame before, have magnitude 0 into the frames 1 to 149 and 20 into
    the frames 150 to 299, the scan with threshold 8 returns the index
    147: the rolling average is 4 at frame 150, 8 at frame 151 and 12 at
    frame 152, where it first exceeds the threshold, and 152 - 5 = 147. *)
Theorem C1_event_index_without_skip (video_path : string) (w : World) (v : Video)
    (frame : Frame) :
  files w !! video_path = Some v ->
  v_frame_count v = 300 ->
  length (v_frames v) = 300%nat ->
  v_fps v = 0 ->
  v_frames v !! 0%nat = Some frame ->
  Forall2 Qeq
    (transitions (initial_reference frame) (drop 1 (v_frames v)))
    (map static_until_150 (seq 1 299)) ->
  fst (detect_motion video_path 8 w) = Ok (Some 147, None).
Proof.
  intros Hfile Hcount Hlen Hfps Hframe Hmag.
  rewrite detect_motion_value, (video_at_Some _ _ _ Hfile), Hcount, Hfps.
  unfold analysed_magnitudes, analysed_frames, SKIP_SECONDS.
  change (Z.to_nat (4 * 0)) with 0%nat. rewrite Hframe.
  rewrite take_ge by (rewrite length_drop; lia).
  do 2 f_equal.
  rewrite (event_index_Forall2 8 1 _ _ Hmag).
  exact (static_until_150_event_index 0 ltac:(lia)).
Qed.

End ScanClaims.

(** * The synthetic platform: evaluations *)

Lemma synthetic_magnitude (g f : Q) :
  (fst (@calculate_motion synthetic g f) == Qabs f)%Q.
Proof.
  unfold calculate_motion, np_mean. cbn [shape synthetic cv2_calcOpticalFlowFarneback
    cv2_cvtColor_BGR2GRAY cv2_resize_to fst repeat length hd].
  change (Z.of_nat 4 / 4) with 1. change (3 * Z.of_nat 4 / 4) with 3.
  unfold abs_components, slice.
  change (Z.to_nat (3 - 1)) with 2%nat. change (Z.to_nat 1) with 1%nat.
  cbn [take drop map concat app fst snd Qsum foldr length].
  change (inject_Z (Z.of_nat 8)) with 8%Q.
  generalize (Qabs f). intros a. field.
Qed.

Lemma takeoff_at_150_magnitudes (g : Q) (i : nat) (f : Q) :
  takeoff_at_150 !! i = Some f ->
  (fst (@calculate_motion synthetic g f) == static_until_150 i)%Q.
Proof.
  intros Hi. rewrite synthetic_magnitude. unfold takeoff_at_150, static_until_150 in *.
  apply lookup_app_Some in Hi as [Hi|[Hge Hi]];
    apply lookup_replicate in Hi as [-> Hlt].
  - apply Nat.ltb_lt in Hlt. now rewrite Hlt.
  - rewrite length_replicate in Hge. apply Nat.ltb_ge in Hge. now rewrite Hge.
Qed.

(** C1, refuted as stated: on the synthetic stream the scan returns 27
    at 30 frames a second and 147 when nothing is skipped, not 145. *)
Lemma C1_counterexample :
  length takeoff_at_150 = 300%nat /\
  (forall (g : Q) (i : nat) (f : Q), takeoff_at_150 !! i = Some f ->
     (fst (@calculate_motion synthetic g f) == static_until_150 i)%Q) /\
  fst (@detect_motion synthetic flight_path 8 (flight_world 30 300 takeoff_at_150)) =
    Ok (Some 27, None) /\
  fst (@detect_motion synthetic flight_path 8 (flight_world 0 300 takeoff_at_150)) =
    Ok (Some 147, None).
Proof.
  split; [reflexivity|]. split; [exact takeoff_at_150_magnitudes|].
  split; vm_compute; reflexivity.
Qed.

Lemma C1_witness :
  fst (@detect_motion synthetic flight_path 8 (flight_world 0 300 takeoff_at_150)) =
  Ok (Some 147, None).
Proof.
  apply (@C1_event_index_without_skip synthetic flight_path
           (flight_world 0 300 takeoff_at_150)
           (@mkVideo synthetic 0 300 1920 1080 takeoff_at_150) 0%Q).
  - vm_compute. reflexivity.
  - reflexivity.
  - reflexivity.
  - reflexivity.
  - reflexivity.
  - apply (@transitions_pointwise synthetic static_until_150). intros g i f Hi.
    rewrite lookup_drop in Hi. now apply takeoff_at_150_magnitudes.
Defined.

(** C2, refuted as stated: with frames 1 to 9 at magnitude 0 and the
    constant 20 from frame 10 on, threshold 8, the rolling average first
    exceeds the threshold at frame 12 and the index is 7, not
    [max 0 (10 - 5) = 5]. *)
Lemma C2_counterexample :
  step_at_10 = replicate 9 0%Q ++ replicate 10 20%Q /\
  Forall (fun m => (m < 8)%Q) (replicate 9 0%Q) /\
  Forall (fun m => (m == 20)%Q) (replicate 10 20%Q) /\
  (8 < 20)%Q /\
  first_crossing 8 step_at_10 = Some 11%nat /\
  snd (run_engine 8 1 step_at_10 ([], None)) = Some 7 /\
  Some 7 <> Some (Z.max 0 (10 - history_size)).
Proof.
  split; [reflexivity|].
  split; [apply Forall_replicate; reflexivity|].
  split; [apply Forall_replicate; reflexivity|].
  split; [reflexivity|].
  split; [vm_compute; reflexivity|].
  split; [vm_compute; reflexivity|].
  discriminate.
Qed.

Lemma C3_witness :
  fst (@detect_motion synthetic flight_path 8 (flight_world 30 300 takeoff_at_150)) =
  Ok (event_index 8 1
        (@transitions synthetic (@initial_reference synthetic 0%Q)
           (@analysed_frames synthetic 30 300 takeoff_at_150)), None).
Proof.
  refine (proj1 (proj2 (proj2
    (@C3_event_index_counts_analysed_frames synthetic flight_path 8
       (flight_world 30 300 takeoff_at_150)
       (@mkVideo synthetic 30 300 1920 1080 takeoff_at_150) 0%Q _ _ _)))).
  - vm_compute. reflexivity.
  - simpl. lia.
  - reflexivity.
Defined.

(** C4, evaluated: when the stream ends during the skip, or right after
    it, [detect_motion] returns [(None, None)] and leaves its capture
    handle open; only the exit at the end of the scan releases it. *)
Theorem C4_early_exits_keep_the_handle :
  (let '(r, w') := @detect_motion synthetic flight_path 8
                     (flight_world 30 300 short_flight) in
   r = Ok (None, None) /\ cap_opened <$> handles w' = [true]) /\
  (let '(r, w') := @detect_motion synthetic flight_path 8
                     (flight_world 30 300 flight_of_120) in
   r = Ok (None, None) /\ cap_opened <$> handles w' = [true]) /\
  (let '(r, w') := @detect_motion synthetic flight_path 8
                     (flight_world 30 300 takeoff_at_150) in
   r = Ok (Some 27, None) /\ cap_opened <$> handles w' = [false]).
Proof. vm_compute. repeat split. Qed.

Lemma C5_witness :
  exists w' : @World synthetic,
    @process_frames_for_takeoff synthetic 0 0%Q 5 0 8 scanning_world = (Ok (Some 0), w').
Proof.
  refine (proj2 (@C5_event_index_set_once synthetic 0 0%Q 5 0 8 scanning_world 1
            (@mkLoop synthetic 20%Q [160 # 8] (Some 0))
            (snd (@frames_loop synthetic 0 5 0 8 (take 1 (range 1 5))
                    (@mkLoop synthetic 0%Q [] None) scanning_world)) 0 _ _)).
  - vm_compute. reflexivity.
  - reflexivity.
Defined.


Lemma C8_witness :
  fst (@detect_motion synthetic flight_path 8 (flight_world 30 300 short_flight)) =
  Ok (None, None).
Proof.
  refine (proj2 (proj2
    (@C8_skip_phase synthetic flight_path 8 (flight_world 30 300 short_flight)
       (@mkVideo synthetic 30 300 1920 1080 short_flight) _ _)) _).
  - vm_compute. reflexivity.
  - reflexivity.
  - simpl. lia.
Defined.


Lemma C10_witness :
  @process_video_file synthetic "input" "output" "flight.mp4"
    (flight_world 0 4 instant_takeoff) =
  bind (@trim_video synthetic flight_path "output/trimmed_flight.mp4" 0 None)
    (fun _ => print (OutProcessed "flight.mp4" 0 None))
    (snd (@detect_motion synthetic flight_path 8 (flight_world 0 4 instant_takeoff))).
Proof.
  refine (proj1 (proj2 (proj2 (proj2
    (@C10_zero_is_a_detection synthetic "input" "output" "flight.mp4"
       (flight_world 0 4 instant_takeoff)
       (snd (@detect_motion synthetic flight_path 8 (flight_world 0 4 instant_takeoff)))
       (Some 0, None) _)))) _).
  - vm_compute. reflexivity.
  - reflexivity.
Defined.

(** * Further properties of the scan *)

Lemma Qsum_nonneg (l : list Q) :
  Forall (fun m => (0 <= m)%Q) l -> (0 <= Qsum l)%Q.
Proof.
  induction 1 as [|m l Hm Hl IH]; cbn [Qsum foldr]; [lra|].
  fold (Qsum l). lra.
Qed.

Lemma np_mean_nonneg (l : list Q) :
  Forall (fun m => (0 <= m)%Q) l -> (0 <= np_mean l)%Q.
Proof.
  intros Hl. unfold np_mean, Qdiv. apply Qmult_le_0_compat.
  - now apply Qsum_nonneg.
  - apply Qinv_le_0_compat. change 0%Q with (inject_Z 0).
    rewrite <- Zle_Qle. lia.
Qed.

Lemma abs_components_nonneg (region : Flow) :
  Forall (fun m => (0 <= m)%Q) (abs_components region).
Proof.
  unfold abs_components. apply Forall_concat, Forall_map, Forall_forall.
  intros row _. apply Forall_concat, Forall_map, Forall_forall.
  intros d _. repeat constructor; apply Qabs_nonneg.
Qed.

Section ScanProperties.

Context {P : Platform}.

Lemma analysed_magnitudes_length (fps total_frames : Z) (frames : list Frame) :
  (Z.of_nat (length (analysed_magnitudes fps total_frames frames)) <=
   Z.max 0 (total_frames - 1)) /\
  (length (analysed_magnitudes fps total_frames frames) <= length frames)%nat.
Proof.
  unfold analysed_magnitudes, analysed_frames.
  destruct (frames !! Z.to_nat (SKIP_SECONDS * fps)); cbn [length]; [|lia].
  rewrite transitions_length, length_take, length_drop. lia.
Qed.

(** X1: The magnitude of a transition is a mean of absolute values: it is
    never negative. *)
Theorem calculate_motion_nonneg (prev_gray : Gray) (current_frame : Frame) :
  (0 <= fst (calculate_motion prev_gray current_frame))%Q.
Proof.
  unfold calculate_motion. destruct (shape prev_gray) as [h w]. cbn [fst].
  apply np_mean_nonneg, abs_components_nonneg.
Qed.

(** X2: [print_progress] is unguarded: it raises [ZeroDivisionError] exactly
    when the frame number or the frame count is 0, and has then printed
    nothing; otherwise it returns after printing one line, the progress
    report for that frame number and frame count. *)
Theorem print_progress_raises_iff (frame_num total_frames : Z) (start_time : Q)
    (w : World) :
  (fst (print_progress frame_num total_frames start_time w) = Raise ZeroDivisionError <->
   frame_num = 0 \/ total_frames = 0) /\
  (fst (print_progress frame_num total_frames start_time w) = Ok tt <->
   frame_num <> 0 /\ total_frames <> 0) /\
  (frame_num = 0 \/ total_frames = 0 ->
   stdout (snd (print_progress frame_num total_frames start_time w)) = stdout w) /\
  (frame_num <> 0 /\ total_frames <> 0 ->
   exists progress elapsed_time estimated_remaining : Q,
     stdout (snd (print_progress frame_num total_frames start_time w)) =
     stdout w ++
       [OutProgress frame_num total_frames progress elapsed_time estimated_remaining]).
Proof.
  unfold print_progress, truediv, bind, time_time, print, ret, raise.
  destruct (Z.eq_dec total_frames 0) as [->|Ht].
  - cbn. split; [split; [auto | reflexivity]|].
    split; [split; [discriminate | intros [_ H]; congruence]|].
    split; [reflexivity | intros [_ H]; congruence].
  - rewrite (inject_Z_nonzero _ Ht). destruct (Z.eq_dec frame_num 0) as [->|Hf].
    + cbn. split; [split; [auto | reflexivity]|].
      split; [split; [discriminate | intros [H _]; congruence]|].
      split; [reflexivity | intros [H _]; congruence].
    + rewrite (inject_Z_nonzero _ Hf). cbn.
      split; [split; [discriminate | intros [?|?]; congruence]|].
      split; [split; auto|].
      split; [intros [?|?]; congruence|]. intros _.
      do 3 eexists. reflexivity.
Qed.

(** X3: The skip loop, for every frame rate: it succeeds exactly when at
    least [4 * fps] frames are left, and has then read exactly that
    many; with a frame rate of 0 or less it reads nothing and succeeds;
    when it fails it has read the stream to its end.  It prints
    nothing. *)
Theorem skip_initial_setup_frames_consumes (cap : nat) (fps : Z) (w : World) :
  exists w' : World,
    skip_initial_setup_frames cap fps w =
      (Ok (bool_decide (Z.to_nat (SKIP_SECONDS * fps) <= length (readable cap w))%nat), w') /\
    readable cap w' = drop (Z.to_nat (SKIP_SECONDS * fps)) (readable cap w) /\
    stdout w' = stdout w.
Proof.
  unfold skip_initial_setup_frames. rewrite range_seqZ, Z.sub_0_r.
  destruct (skip_loop_returns cap (Z.to_nat (SKIP_SECONDS * fps)) 0 w)
    as (b & w' & E & Hout & -> & Hdrop).
  exists w'. auto.
Qed.

(** X5: The index a scan returns is never negative and at most
    [total_frames - 6]: it is [max 0 (n - 5)] for a frame number [n] of
    the loop, which stays below the frame count. *)
Theorem event_index_in_range (video_path : string) (thr : Q) (w w' : World)
    (t : Z) (landing : option Z) :
  let v := video_at video_path w in
  detect_motion video_path thr w = (Ok (Some t, landing), w') ->
  0 <= t <= Z.max 0 (v_frame_count v - 6).
Proof.
  intros v E. pose proof (detect_motion_value video_path thr w) as Hv.
  rewrite E in Hv. cbn [fst] in Hv. fold v in Hv. injection Hv as Ht _.
  symmetry in Ht.
  apply event_index_Some in Ht as (i & Hi & _ & _ & ->).
  pose proof (analysed_magnitudes_length (v_fps v) (v_frame_count v) (v_frames v))
    as [Hlen _].
  unfold history_size. lia.
Qed.

End ScanProperties.

(** * What the scan leaves alone *)

Section ScanEffects.

Context {P : Platform}.

Lemma capture_eta (c : Capture) :
  mkCapture (cap_video c) (cap_pos c) (cap_opened c) = c.
Proof. now destruct c. Qed.

Lemma moves_refl (cap : nat) (w : World) : moves cap w w.
Proof.
  exists (cap_pos (handle_state cap w)). rewrite capture_eta.
  unfold handle_state. destruct (handles w !! cap) as [c|] eqn:E; cbn; symmetry.
  - now apply list_insert_id.
  - apply list_insert_ge. now apply lookup_ge_None.
Qed.

(** After a move the handle holds the same source in the same state. *)
Lemma moves_handle_state (cap : nat) (w w' : World) :
  moves cap w w' ->
  cap_video (handle_state cap w') = cap_video (handle_state cap w) /\
  cap_opened (handle_state cap w') = cap_opened (handle_state cap w).
Proof.
  intros (pos & Hh). unfold handle_state at 1 3. rewrite Hh.
  destruct (decide (cap < length (handles w))%nat) as [Hlt|Hge].
  - rewrite list_lookup_insert_eq by exact Hlt. now cbn.
  - rewrite list_insert_ge by lia. now split.
Qed.

Lemma moves_trans (cap : nat) (w1 w2 w3 : World) :
  moves cap w1 w2 -> moves cap w2 w3 -> moves cap w1 w3.
Proof.
  intros H12 H23. destruct (moves_handle_state _ _ _ H12) as [Hv Ho].
  destruct H12 as (p1 & H1), H23 as (p2 & H2).
  exists p2. rewrite H2, H1, Hv, Ho. apply list_insert_insert_eq.
Qed.

Lemma scan_step_refl (cap : nat) (w : World) : scan_step cap w w.
Proof.
  split; [reflexivity|]. split; [reflexivity|]. split; [apply moves_refl|].
  exists []. now rewrite app_nil_r.
Qed.

Lemma scan_step_trans (cap : nat) (w1 w2 w3 : World) :
  scan_step cap w1 w2 -> scan_step cap w2 w3 -> scan_step cap w1 w3.
Proof.
  intros (Hf1 & Hd1 & Hm1 & o1 & Ho1 & Hv1) (Hf2 & Hd2 & Hm2 & o2 & Ho2 & Hv2).
  split; [congruence|]. split; [congruence|].
  split; [eapply moves_trans; eassumption|].
  exists (o1 ++ o2). split; [|now apply Forall_app].
  rewrite Ho2, Ho1. now rewrite app_assoc.
Qed.

Lemma effect_ret {A} (a : A) (R : World -> World -> Prop) :
  (forall w, R w w) -> effect (ret a) R.
Proof. intros HR w r w' [= <- <-]. apply HR. Qed.

Lemma effect_bind {A B} (c : M A) (k : A -> M B) (R : World -> World -> Prop) :
  (forall w1 w2 w3, R w1 w2 -> R w2 w3 -> R w1 w3) ->
  effect c R -> (forall a, effect (k a) R) -> effect (bind c k) R.
Proof.
  intros Htrans Hc Hk w r w' E. unfold bind in E.
  destruct (c w) as [[a|e] w1] eqn:Ec.
  - eapply Htrans; [eapply Hc | eapply Hk]; eassumption.
  - injection E as <- <-. eapply Hc; eassumption.
Qed.

Lemma returns_effect {A} (c : M A) (w : World) (post : A -> World -> Prop)
    (R : World -> World -> Prop) :
  returns c w post -> effect c R -> returns c w (fun a w' => post a w' /\ R w w').
Proof.
  intros (a & w' & E & Hp) Heff. exists a, w'. split; [exact E|].
  split; [exact Hp | eapply Heff; exact E].
Qed.

Lemma cap_read_step (cap : nat) : effect (cap_read cap) (scan_step cap).
Proof.
  intros w r w' E. unfold cap_read in E.
  destruct (cap_opened (handle_state cap w)) eqn:Ho.
  - destruct (v_frames (cap_video (handle_state cap w)) !! cap_pos (handle_state cap w)).
    + injection E as <- <-. split; [reflexivity|]. split; [reflexivity|].
      split; [|exists []; now rewrite app_nil_r].
      eexists. cbn [handles set_handle]. now rewrite Ho.
    + injection E as <- <-. apply scan_step_refl.
  - injection E as <- <-. apply scan_step_refl.
Qed.

Lemma print_step (cap : nat) (o : Output) :
  is_verdict o = false -> effect (print o) (scan_step cap).
Proof.
  intros Ho w r w' [= <- <-]. split; [reflexivity|]. split; [reflexivity|].
  split; [apply (moves_refl cap w)|]. exists [o]. split; [reflexivity|].
  now repeat constructor.
Qed.

Lemma time_time_step (cap : nat) : effect time_time (scan_step cap).
Proof.
  intros w r w' [= <- <-]. split; [reflexivity|]. split; [reflexivity|].
  split; [apply (moves_refl cap w)|]. exists []. now rewrite app_nil_r.
Qed.

Lemma truediv_step (cap : nat) (a b : Q) : effect (truediv a b) (scan_step cap).
Proof.
  intros w r w' E. unfold truediv in E.
  destruct (Qeq_bool b 0); injection E as <- <-; apply scan_step_refl.
Qed.

Lemma py_mod_step (cap : nat) (a b : Z) : effect (py_mod a b) (scan_step cap).
Proof.
  intros w r w' E. unfold py_mod in E.
  destruct (b =? 0); injection E as <- <-; apply scan_step_refl.
Qed.

Lemma print_progress_step (cap : nat) (frame_num total_frames : Z) (start_time : Q) :
  effect (print_progress frame_num total_frames start_time) (scan_step cap).
Proof.
  unfold print_progress.
  apply effect_bind; [apply scan_step_trans | apply time_time_step |]. intros now.
  apply effect_bind; [apply scan_step_trans | apply truediv_step |]. intros ratio.
  apply effect_bind; [apply scan_step_trans | apply truediv_step |]. intros per_frame.
  now apply print_step.
Qed.

Lemma skip_loop_step (cap : nat) (iterations : list Z) :
  effect (skip_loop cap iterations) (scan_step cap).
Proof.
  induction iterations as [|i rest IH]; cbn [skip_loop].
  - apply effect_ret, scan_step_refl.
  - apply effect_bind; [apply scan_step_trans | apply cap_read_step |].
    intros r. destruct (negb (fst r)); [apply effect_ret, scan_step_refl | exact IH].
Qed.

Lemma get_initial_frame_step (cap : nat) :
  effect (get_initial_frame cap) (scan_step cap).
Proof.
  unfold get_initial_frame.
  apply effect_bind; [apply scan_step_trans | apply cap_read_step |].
  intros [[|] [frame|]]; apply effect_ret, scan_step_refl.
Qed.

Lemma frames_loop_step (cap : nat) (total_frames : Z) (start_time thr : Q)
    (frame_nums : list Z) : forall st : LoopState,
  effect (frames_loop cap total_frames start_time thr frame_nums st) (scan_step cap).
Proof.
  induction frame_nums as [|frame_num rest IH]; intros st; cbn [frames_loop].
  - apply effect_ret, scan_step_refl.
  - apply effect_bind; [apply scan_step_trans | apply py_mod_step |]. intros r.
    apply effect_bind; [apply scan_step_trans | |].
    + destruct (r =? 0); [apply print_progress_step | apply effect_ret, scan_step_refl].
    + intros _.
      apply effect_bind; [apply scan_step_trans | apply cap_read_step |].
      intros [[|] [frame|]]; try (apply effect_ret, scan_step_refl).
      destruct (calculate_motion (prev_gray st) frame) as [m gray].
      destruct (decide_step thr frame_num m (motion_history st, takeoff_frame st)).
      apply IH.
Qed.

Lemma process_frames_for_takeoff_step (cap : nat) (g : Gray) (total_frames : Z)
    (start_time thr : Q) :
  effect (process_frames_for_takeoff cap g total_frames start_time thr) (scan_step cap).
Proof.
  unfold process_frames_for_takeoff.
  apply effect_bind; [apply scan_step_trans | apply frames_loop_step |].
  intros st. apply effect_ret, scan_step_refl.
Qed.

Lemma insert_last {A} (l : list A) (x y : A) :
  <[length l := y]> (l ++ [x]) = l ++ [y].
Proof. rewrite insert_app_r_alt by lia. now rewrite Nat.sub_diag. Qed.

Lemma opened_capture (video_path : string) (w : World) :
  match files w !! video_path with
  | Some v => mkCapture v 0 true
  | None => mkCapture no_video 0 false
  end =
  mkCapture (video_at video_path w) 0 (bool_decide (is_Some (files w !! video_path))).
Proof.
  unfold video_at. destruct (files w !! video_path) as [v|]; cbn [default].
  - now rewrite (bool_decide_eq_true_2 (is_Some (Some v))) by eauto.
  - now rewrite (bool_decide_eq_false_2 (is_Some None)) by (apply is_Some_None).
Qed.

(** A scan step from the world in which the handle has just been
    opened, seen from the world before. *)
Lemma scan_step_after_open (w w3 w' : World) (c0 : Capture) (outs0 : list Output) :
  files w3 = files w -> dirs w3 = dirs w ->
  handles w3 = handles w ++ [c0] ->
  stdout w3 = stdout w ++ outs0 -> Forall (fun o => is_verdict o = false) outs0 ->
  scan_step (length (handles w)) w3 w' ->
  files w' = files w /\ dirs w' = dirs w /\
  (exists pos, handles w' = handles w ++ [mkCapture (cap_video c0) pos (cap_opened c0)]) /\
  (exists outs, stdout w' = stdout w ++ outs /\
     Forall (fun o => is_verdict o = false) outs).
Proof.
  intros Hf Hd Hh Ho Hv (Hf' & Hd' & (pos & Hm) & outs & Ho' & Hv').
  split; [congruence|]. split; [congruence|]. split.
  - exists pos. rewrite Hm. unfold handle_state. rewrite Hh.
    rewrite list_lookup_middle by reflexivity. cbn [default]. apply insert_last.
  - exists (outs0 ++ outs). split; [|now apply Forall_app].
    rewrite Ho', Ho. now rewrite app_assoc.
Qed.

(** Everything a scan does to the world: it returns normally with the
    event index; it leaves files and directories alone; it adds one
    capture handle, which it leaves open exactly when the file could be
    opened and the stream ended before the initial reference; it prints
    no verdict. *)
Lemma detect_motion_effects (video_path : string) (thr : Q) (w : World) :
  let v := video_at video_path w in
  let s := Z.to_nat (SKIP_SECONDS * v_fps v) in
  returns (detect_motion video_path thr) w (fun r w' =>
    r = (event_index thr 1
           (analysed_magnitudes (v_fps v) (v_frame_count v) (v_frames v)), None) /\
    files w' = files w /\
    dirs w' = dirs w /\
    (exists pos : nat,
       handles w' = handles w ++
         [mkCapture v pos
            (bool_decide (is_Some (files w !! video_path)) &&
             negb (bool_decide (is_Some (v_frames v !! s))))]) /\
    (exists outs : list Output,
       stdout w' = stdout w ++ outs /\ Forall (fun o => is_verdict o = false) outs)).
Proof.
  intros v s. unfold detect_motion.
  apply returns_bind. do 2 eexists. split; [reflexivity|]. cbv beta.
  apply returns_bind. do 2 eexists. split; [reflexivity|]. cbv beta.
  apply returns_bind. do 2 eexists. split; [reflexivity|]. cbv beta iota.
  apply returns_bind. do 2 eexists. split; [reflexivity|]. cbv beta.
  cbn [handles files dirs stdout ticks].
  rewrite (opened_capture video_path w). fold v.
  set (c0 := mkCapture v 0 (bool_decide (is_Some (files w !! video_path)))).
  match goal with |- returns _ ?x _ => set (w3 := x) end.
  assert (Hh3 : handles w3 = handles w ++ [c0]) by reflexivity.
  assert (Hs3 : handle_state (length (handles w)) w3 = c0).
  { unfold handle_state. rewrite Hh3. now rewrite list_lookup_middle. }
  assert (Hread : readable (length (handles w)) w3 = v_frames v).
  { unfold readable. rewrite Hs3. cbn [c0 cap_opened cap_pos cap_video].
    case_bool_decide as Hfile; [reflexivity|].
    unfold v, video_at. destruct (files w !! video_path); [|reflexivity].
    exfalso. apply Hfile. eauto. }
  assert (Hout3 : exists outs0, stdout w3 = stdout w ++ outs0 /\
            Forall (fun o => is_verdict o = false) outs0).
  { subst w3. cbn [stdout]. rewrite <- !app_assoc. cbn [app].
    eexists. split; [reflexivity|]. now repeat constructor. }
  destruct Hout3 as (outs0 & Hout3 & Hv3).
  assert (Hf3 : files w3 = files w) by reflexivity.
  assert (Hd3 : dirs w3 = dirs w) by reflexivity.
  replace (v_fps (cap_video (handle_state (length (handles w))
             (mkWorld (files w) (dirs w) (handles w ++ [c0]) (stdout w) (S (ticks w))))))
    with (v_fps v)
    by (unfold handle_state; cbn [handles]; now rewrite list_lookup_middle).
  replace (v_frame_count (cap_video (handle_state (length (handles w))
             (mkWorld (files w) (dirs w) (handles w ++ [c0]) (stdout w) (S (ticks w))))))
    with (v_frame_count v)
    by (unfold handle_state; cbn [handles]; now rewrite list_lookup_middle).
  clearbody w3.
  apply returns_bind. unfold skip_initial_setup_frames. rewrite range_seqZ, Z.sub_0_r.
  eapply returns_mono;
    [apply returns_effect; [apply skip_loop_returns | apply skip_loop_step]|].
  intros skipped w4 ((_ & Hskipped & Hread4) & Hstep4). cbv beta.
  rewrite Hread in Hskipped, Hread4. unfold analysed_magnitudes, analysed_frames.
  fold s in Hskipped, Hread4 |- *.
  destruct skipped; cbn [negb].
  - apply returns_bind.
    eapply returns_mono;
      [apply returns_effect; [apply get_initial_frame_returns
                             | apply get_initial_frame_step]|].
    intros g w5 ((_ & Hg) & Hstep5). cbv beta. rewrite Hread4 in Hg.
    pose proof (scan_step_trans _ _ _ _ Hstep4 Hstep5) as Hstep35.
    destruct (v_frames v !! s) as [frame|] eqn:Hframe.
    + rewrite (drop_S _ _ _ Hframe) in Hg. destruct Hg as (-> & Hread5).
      apply returns_bind.
      eapply returns_mono;
        [apply returns_effect; [apply process_frames_for_takeoff_returns
                               | apply process_frames_for_takeoff_step]|].
      intros t w6 ((Ht & _) & Hstep6). cbv beta.
      pose proof (scan_step_trans _ _ _ _ Hstep35 Hstep6) as Hstep36.
      destruct (scan_step_after_open w w3 w6 c0 outs0 Hf3 Hd3 Hh3 Hout3 Hv3 Hstep36)
        as (Hf6 & Hd6 & (pos & Hh6) & outs & Hout6 & Hv6).
      apply returns_bind. do 2 eexists. split; [reflexivity|]. cbv beta.
      apply returns_bind. do 2 eexists. split; [reflexivity|]. cbv beta.
      apply returns_bind. do 2 eexists. split; [reflexivity|]. cbv beta.
      apply returns_ret. rewrite Hread5, run_engine_event_index in Ht.
      split; [now rewrite Ht|].
      cbn [files dirs handles stdout set_handle].
      split; [exact Hf6|]. split; [exact Hd6|]. split.
      * exists pos. unfold handle_state. cbn [handles]. rewrite Hh6.
        rewrite list_lookup_middle by reflexivity. cbn [default cap_video cap_pos c0].
        rewrite insert_last. do 2 f_equal.
        rewrite (bool_decide_eq_true_2 (is_Some (Some frame))) by eauto.
        now rewrite andb_false_r.
      * exists (outs ++ [OutAnalysisComplete
                          (wall (ticks w6) - wall (ticks w))%Q]).
        split; [rewrite Hout6; now rewrite app_assoc|].
        apply Forall_app. split; [exact Hv6 | now repeat constructor].
    + rewrite drop_ge in Hg by (now apply lookup_ge_None). subst g.
      apply returns_ret. split; [reflexivity|].
      destruct (scan_step_after_open w w3 w5 c0 outs0 Hf3 Hd3 Hh3 Hout3 Hv3 Hstep35)
        as (Hf5 & Hd5 & (pos & Hh5) & Houts5).
      split; [exact Hf5|]. split; [exact Hd5|]. split; [|exact Houts5].
      exists pos. rewrite Hh5. cbn [c0 cap_video cap_opened]. do 2 f_equal.
      rewrite (bool_decide_eq_false_2 (is_Some None)) by (apply is_Some_None).
      now rewrite andb_true_r.
  - apply returns_ret. symmetry in Hskipped. apply bool_decide_eq_false in Hskipped.
    assert (Hnone : v_frames v !! s = None) by (apply lookup_ge_None; lia).
    rewrite Hnone. split; [reflexivity|].
    destruct (scan_step_after_open w w3 w4 c0 outs0 Hf3 Hd3 Hh3 Hout3 Hv3 Hstep4)
      as (Hf4 & Hd4 & (pos & Hh4) & Houts4).
    split; [exact Hf4|]. split; [exact Hd4|]. split; [|exact Houts4].
    exists pos. rewrite Hh4. cbn [c0 cap_video cap_opened]. do 2 f_equal.
    rewrite (bool_decide_eq_false_2 (is_Some None)) by (apply is_Some_None).
    now rewrite andb_true_r.
Qed.

End ScanEffects.

(** * The trimmer *)

Section Trim.

Context {P : Platform}.






End Trim.

(** * The driver *)


Section Driver.

Context {P : Platform}.



End Driver.

(** * Python's [str.endswith] *)

Lemma string_app_cons (x : ascii) (a b : string) :
  String x a +:+ b = String x (a +:+ b).
Proof. reflexivity. Qed.

Lemma string_app_nil_r (a : string) : a +:+ "" = a.
Proof.
  induction a as [|x a IH]; [reflexivity|]. now rewrite string_app_cons, IH.
Qed.

Lemma string_app_assoc (a b c : string) : (a +:+ b) +:+ c = a +:+ (b +:+ c).
Proof.
  induction a as [|x a IH]; [reflexivity|]. now rewrite !string_app_cons, IH.
Qed.

Lemma prefix_app (a b : string) :
  String.prefix a b = true <-> exists c, b = a +:+ c.
Proof.
  revert b. induction a as [|x a IH]; intros b.
  - destruct b; cbn; (split; [intros _; eexists; reflexivity | reflexivity]).
  - destruct b as [|y b]; cbn [String.prefix].
    + split; [discriminate | intros [c Hc]]. rewrite string_app_cons in Hc.
      discriminate.
    + destruct (Ascii.ascii_dec x y) as [->|Hne].
      * rewrite IH. split; intros [c Hc]; exists c.
        -- now rewrite string_app_cons, Hc.
        -- rewrite string_app_cons in Hc. now injection Hc.
      * split; [discriminate | intros [c Hc]]. rewrite string_app_cons in Hc.
        injection Hc as -> _. contradiction.
Qed.

Lemma rev_app_acc (a acc : string) :
  String.rev_app a acc = String.rev_app a "" +:+ acc.
Proof.
  revert acc. induction a as [|x a IH]; intros acc; cbn [String.rev_app];
    [reflexivity|].
  rewrite (IH (String x acc)), (IH (String x "")).
  now rewrite string_app_assoc.
Qed.

Lemma rev_app_rev_app (a acc acc' : string) :
  String.rev_app (String.rev_app a acc) acc' = String.rev_app acc (a +:+ acc').
Proof.
  revert acc. induction a as [|x a IH]; intros acc; cbn [String.rev_app];
    [reflexivity|].
  now rewrite IH.
Qed.

Lemma string_rev_involutive (a : string) : String.rev (String.rev a) = a.
Proof.
  unfold String.rev. rewrite rev_app_rev_app. cbn [String.rev_app].
  apply string_app_nil_r.
Qed.

Lemma string_rev_app (a b : string) :
  String.rev (a +:+ b) = String.rev b +:+ String.rev a.
Proof.
  unfold String.rev. revert b. induction a as [|x a IH]; intros b.
  - cbn [String.rev_app]. now rewrite string_app_nil_r.
  - rewrite string_app_cons. cbn [String.rev_app].
    rewrite (rev_app_acc (a +:+ b)), IH, (rev_app_acc a (String x "")).
    now rewrite string_app_assoc.
Qed.

Lemma endswith_app (s suffix : string) :
  endswith s suffix = true <-> exists stem, s = stem +:+ suffix.
Proof.
  unfold endswith. rewrite prefix_app. split.
  - intros [c Hc]. exists (String.rev c).
    rewrite <- (string_rev_involutive s), Hc, string_rev_app.
    now rewrite string_rev_involutive.
  - intros [stem ->]. exists (String.rev stem). apply string_rev_app.
Qed.

(** X17: The driver selects a directory entry exactly when its name ends
    with one of [.mp4], [.MP4], [.avi], [.mov], letter case included. *)
Theorem video_file_selected_iff (f : string) :
  endswith_any f video_extensions = true <->
  exists stem : string,
    f = stem +:+ ".mp4" \/ f = stem +:+ ".MP4" \/
    f = stem +:+ ".avi" \/ f = stem +:+ ".mov".
Proof.
  unfold endswith_any, video_extensions. cbn [existsb].
  rewrite !orb_true_iff, !endswith_app. split.
  - intros [[x H]|[[x H]|[[x H]|[[x H]|H]]]]; try discriminate; exists x; auto.
  - intros [x [H|[H|[H|H]]]]; eauto 7.
Qed.

(** * Further properties of the scan, the trimmer and the driver *)

Section Behaviour.

Context {P : Platform}.

(** X6: During warm-up the average is over the values held: when the first
    analysed transition already exceeds the threshold, the scan sets the
    event at frame number 1 and returns the index [max 0 (1 - 5) = 0],
    whatever follows. *)
Theorem detection_at_first_frame (video_path : string) (thr : Q) (w : World)
    (v : Video) (reference frame : Frame) :
  files w !! video_path = Some v ->
  v_frames v !! Z.to_nat (SKIP_SECONDS * v_fps v) = Some reference ->
  v_frames v !! S (Z.to_nat (SKIP_SECONDS * v_fps v)) = Some frame ->
  2 <= v_frame_count v ->
  (thr < fst (calculate_motion (initial_reference reference) frame))%Q ->
  fst (detect_motion video_path thr w) = Ok (Some 0, None).
Proof.
  intros Hfile Href Hframe Hcount Hm.
  rewrite detect_motion_value, (video_at_Some _ _ _ Hfile).
  unfold analysed_magnitudes, analysed_frames. rewrite Href.
  rewrite (drop_S _ _ _ Hframe).
  destruct (Z.to_nat (v_frame_count v - 1)) as [|n] eqn:En; [lia|].
  cbn [take transitions].
  unfold event_index, first_crossing. cbn [length seq List.find].
  unfold crosses at 1, rolling_average, window. cbn [take]. rewrite take_0.
  rewrite lastn_short by (cbn [length]; lia).
  replace (Qgtb (np_mean [fst (calculate_motion (initial_reference reference) frame)]) thr)
    with true; [reflexivity|].
  symmetry. apply Qgtb_true.
  now rewrite np_mean_singleton.
Qed.

(** X7: The frame count of the metadata bounds the scan: frames of the
    stream past the position [4 * fps + total_frames - 1] have no
    influence on its result. *)
Theorem frames_past_the_count_are_ignored (video_path : string) (thr : Q)
    (w1 w2 : World) (v : Video) (extra : list Frame) :
  files w1 !! video_path = Some v ->
  files w2 !! video_path =
    Some (mkVideo (v_fps v) (v_frame_count v) (v_width v) (v_height v)
            (v_frames v ++ extra)) ->
  (Z.to_nat (SKIP_SECONDS * v_fps v) + Z.to_nat (v_frame_count v - 1)
     < length (v_frames v))%nat ->
  fst (detect_motion video_path thr w1) = fst (detect_motion video_path thr w2).
Proof.
  intros H1 H2 Hlen.
  rewrite !detect_motion_value, (video_at_Some _ _ _ H1), (video_at_Some _ _ _ H2).
  cbn [v_fps v_frame_count v_frames]. do 3 f_equal.
  unfold analysed_magnitudes, analysed_frames.
  rewrite lookup_app_l by lia.
  destruct (v_frames v !! Z.to_nat (SKIP_SECONDS * v_fps v)); [|reflexivity].
  f_equal. rewrite drop_app_le by lia. symmetry. apply take_app_le.
  rewrite length_drop. lia.
Qed.

(** X8: A scan never changes a file or a directory, never disturbs the
    handles that were open before it, and prints no verdict; it always
    returns normally. *)
Theorem detect_motion_changes_no_file (video_path : string) (thr : Q) (w : World) :
  exists (r : option Z * option Z) (w' : World) (outs : list Output),
    detect_motion video_path thr w = (Ok r, w') /\
    files w' = files w /\
    dirs w' = dirs w /\
    take (length (handles w)) (handles w') = handles w /\
    stdout w' = stdout w ++ outs /\
    Forall (fun o => is_verdict o = false) outs.
Proof.
  destruct (detect_motion_effects video_path thr w)
    as (r & w' & E & _ & Hf & Hd & (pos & Hh) & outs & Ho & Hv).
  exists r, w', outs. repeat split; try assumption.
  rewrite Hh. now rewrite take_app_length.
Qed.

(** X9: The capture handle of a scan, in general: the scan adds one handle,
    and leaves it open exactly when the file could be opened and the
    stream has at most [4 * fps] frames, so that the scan ends before
    its initial reference. *)
Theorem detect_motion_leaves_handle_open_iff (video_path : string) (thr : Q)
    (w : World) :
  let v := video_at video_path w in
  exists (r : option Z * option Z) (w' : World) (c : Capture),
    detect_motion video_path thr w = (Ok r, w') /\
    handles w' = handles w ++ [c] /\
    cap_video c = v /\
    (cap_opened c = true <->
     is_Some (files w !! video_path) /\
     (length (v_frames v) <= Z.to_nat (SKIP_SECONDS * v_fps v))%nat).
Proof.
  intros v.
  destruct (detect_motion_effects video_path thr w)
    as (r & w' & E & _ & _ & _ & (pos & Hh) & _).
  fold v in Hh. eexists r, w', _. split; [exact E|]. split; [exact Hh|].
  split; [reflexivity|]. cbn [cap_opened].
  rewrite andb_true_iff, negb_true_iff, bool_decide_eq_true, bool_decide_eq_false.
  rewrite <- lookup_ge_None, eq_None_not_Some. reflexivity.
Qed.

(** X10: A path at which there is no video: the scan returns [(None, None)],
    its handle holds nothing, and neither files nor directories
    change. *)
Theorem detect_motion_missing_file (video_path : string) (thr : Q) (w : World) :
  files w !! video_path = None ->
  exists (w' : World) (pos : nat),
    detect_motion video_path thr w = (Ok (None, None), w') /\
    handles w' = handles w ++ [mkCapture no_video pos false] /\
    files w' = files w /\
    dirs w' = dirs w.
Proof.
  intros Hnone.
  destruct (detect_motion_effects video_path thr w)
    as (r & w' & E & Hr & Hf & Hd & (pos & Hh) & _).
  assert (Hv : video_at video_path w = no_video)
    by (unfold video_at; now rewrite Hnone).
  rewrite Hv, Hnone in Hh. rewrite Hv in Hr.
  rewrite (bool_decide_eq_false_2 (is_Some None)) in Hh by (apply is_Some_None).
  exists w', pos. rewrite E, Hr. auto.
Qed.






End Behaviour.

(** * The further properties on the synthetic platform *)

Lemma event_index_in_range_witness :
  0 <= 0 <= Z.max 0
    (v_frame_count (video_at flight_path (flight_world 0 4 instant_takeoff)) - 6).
Proof.
  apply (@event_index_in_range synthetic flight_path 8
           (flight_world 0 4 instant_takeoff)
           (snd (@detect_motion synthetic flight_path 8
                   (flight_world 0 4 instant_takeoff)))
           0 None).
  vm_compute. reflexivity.
Defined.

Lemma detection_at_first_frame_witness :
  fst (@detect_motion synthetic flight_path 8 (flight_world 0 4 instant_takeoff)) =
  Ok (Some 0, None).
Proof.
  apply (@detection_at_first_frame synthetic flight_path 8
           (flight_world 0 4 instant_takeoff)
           (@mkVideo synthetic 0 4 1920 1080 instant_takeoff) 0%Q 20%Q).
  - vm_compute. reflexivity.
  - reflexivity.
  - reflexivity.
  - simpl. lia.
  - vm_compute. reflexivity.
Defined.

Lemma frames_past_the_count_are_ignored_witness :
  fst (@detect_motion synthetic flight_path 8 (flight_world 0 3 instant_takeoff)) =
  fst (@detect_motion synthetic flight_path 8
         (flight_world 0 3 (instant_takeoff ++ [0; 0]%Q))).
Proof.
  apply (@frames_past_the_count_are_ignored synthetic flight_path 8
           (flight_world 0 3 instant_takeoff)
           (flight_world 0 3 (instant_takeoff ++ [0; 0]%Q))
           (@mkVideo synthetic 0 3 1920 1080 instant_takeoff) [0; 0]%Q).
  - vm_compute. reflexivity.
  - vm_compute. reflexivity.
  - simpl. lia.
Defined.

Lemma detect_motion_missing_file_witness :
  exists (w' : @World synthetic) (pos : nat),
    @detect_motion synthetic missing_path 8 (flight_world 30 300 takeoff_at_150) =
      (Ok (None, None), w') /\
    handles w' = handles (flight_world 30 300 takeoff_at_150) ++
                 [@mkCapture synthetic (@no_video synthetic) pos false] /\
    files w' = files (flight_world 30 300 takeoff_at_150) /\
    dirs w' = dirs (flight_world 30 300 takeoff_at_150).
Proof.
  apply (@detect_motion_missing_file synthetic missing_path 8
           (flight_world 30 300 takeoff_at_150)).
  vm_compute. reflexivity.
Defined.





